(** * Steam showcase card: the profile model, the cache codec and the renderer

    A shallow embedding of [scripts/update_steam_showcase.py].

    Python values are modelled as follows.
    - [str] is a list of Unicode code points ([Z]); [bytes] is a list of
      [Byte.byte].
    - [int] is [Z]; [Optional[t]] is [option t].
    - The wall clock read by [datetime.now] is an explicit [world] that is
      threaded through the code reading it.
    - The JSON documents handled by the [json] module are values of the
      inductive type [json]; a Python [dict] is an association list in
      insertion order. *)

From Stdlib Require Import Strings.String Strings.Ascii Strings.Byte DecimalString.
From Stdlib Require Import ZArith Bool Lia List.
From Stdlib Require DecimalPos.
Import ListNotations.
Open Scope Z_scope.

(** ** Python strings *)

Definition str := list Z.
Definition bytes := list byte.

(** Decoding of the UTF-8 bytes of a source literal into code points. *)
Fixpoint utf8_decode (bs : list Z) : str :=
  match bs with
  | [] => []
  | b0 :: r0 =>
    if b0 <? 128 then b0 :: utf8_decode r0
    else if b0 <? 224 then
      match r0 with
      | b1 :: r1 =>
        Z.lor (Z.shiftl (Z.land b0 31) 6) (Z.land b1 63) :: utf8_decode r1
      | _ => []
      end
    else if b0 <? 240 then
      match r0 with
      | b1 :: b2 :: r2 =>
        Z.lor (Z.shiftl (Z.land b0 15) 12)
              (Z.lor (Z.shiftl (Z.land b1 63) 6) (Z.land b2 63))
          :: utf8_decode r2
      | _ => []
      end
    else
      match r0 with
      | b1 :: b2 :: b3 :: r3 =>
        Z.lor (Z.shiftl (Z.land b0 7) 18)
              (Z.lor (Z.shiftl (Z.land b1 63) 12)
                     (Z.lor (Z.shiftl (Z.land b2 63) 6) (Z.land b3 63)))
          :: utf8_decode r3
      | _ => []
      end
  end.

Definition ascii_code (a : ascii) : Z := Z.of_N (N_of_ascii a).

(** A string literal of the source, as its code points. *)
Definition lit (s : string) : str :=
  utf8_decode (map ascii_code (list_ascii_of_string s)).

(** A literal of the source that contains double quotes: the double quote
    (code point 34) is written as a backquote (code point 96), which occurs
    in no literal of the script. *)
Definition tpl (s : string) : str :=
  map (fun c => if c =? 96 then 34 else c) (lit s).

(** [str(n)] and [f"{n}"] for an [int]. *)
Definition str_of_int (n : Z) : str :=
  lit (NilEmpty.string_of_int (Z.to_int n)).

(** Truth value of a [str], of an [Optional[str]] and of an [Optional[int]]. *)
Definition truthy_str (s : str) : bool :=
  match s with [] => false | _ => true end.

Definition truthy_ostr (o : option str) : bool :=
  match o with Some s => truthy_str s | None => false end.

Definition truthy_oint (o : option Z) : bool :=
  match o with Some n => negb (n =? 0) | None => false end.

(** [a or b] on strings. *)
Definition or_str (o : option str) (d : str) : str :=
  match o with
  | Some s => if truthy_str s then s else d
  | None => d
  end.

(** [str.isspace] on one code point: the characters [str.strip()] removes. *)
Definition isspace (c : Z) : bool :=
  ((9 <=? c) && (c <=? 13)) || ((28 <=? c) && (c <=? 32))
  || (c =? 133) || (c =? 160) || (c =? 5760)
  || ((8192 <=? c) && (c <=? 8202))
  || (c =? 8232) || (c =? 8233) || (c =? 8239) || (c =? 8287) || (c =? 12288).

Fixpoint lstrip (s : str) : str :=
  match s with
  | c :: r => if isspace c then lstrip r else s
  | [] => []
  end.

Definition rstrip (s : str) : str := rev (lstrip (rev s)).

(** [s.strip()] *)
Definition strip (s : str) : str := rstrip (lstrip s).

(** [sep.join(parts)] *)
Fixpoint join (sep : str) (parts : list str) : str :=
  match parts with
  | [] => []
  | [x] => x
  | x :: r => x ++ sep ++ join sep r
  end.

(** [s.split(sep)] for a separator of one character: the pieces between the
    occurrences of [sep], at least one piece. *)
Fixpoint split_on (sep : Z) (s : str) : list str :=
  match s with
  | [] => [[]]
  | c :: r =>
    if c =? sep then [] :: split_on sep r
    else match split_on sep r with
         | l :: ls => (c :: l) :: ls
         | [] => [[c]]
         end
  end.

(** [s.split(sep, 1)[0]]: the text before the first [sep]. *)
Fixpoint before_first (sep : Z) (s : str) : str :=
  match s with
  | [] => []
  | c :: r => if c =? sep then [] else c :: before_first sep r
  end.

(** [s.replace(old, new)] where [old] is one character. *)
Definition replace1 (old : Z) (new : str) (s : str) : str :=
  flat_map (fun c => if c =? old then new else [c]) s.

(** [chr(n)]: [ValueError] ([None]) outside [range(0x110000)]. *)
Definition chr (n : Z) : option Z :=
  if (0 <=? n) && (n <=? 1114111) then Some n else None.

(** The characters produced by a generator of [chr] calls, joined by the
    empty string; [None] as soon as one call raises. *)
Fixpoint join_chr (l : list (option Z)) : option str :=
  match l with
  | [] => Some []
  | None :: _ => None
  | Some c :: r =>
    match join_chr r with Some s => Some (c :: s) | None => None end
  end.

(** ** Dates *)

(** [datetime] values in UTC and [timedelta] values are counted in
    microseconds; a [datetime] is the time elapsed since the epoch. *)
Definition us_per_second : Z := 1000000.
Definition us_per_day : Z := 86400 * us_per_second.

(** [datetime.fromtimestamp(t, tz=timezone.utc)] for an [int] [t]:
    the years 1 to 9999 are representable, anything else raises one of
    [OverflowError], [OSError], [ValueError]. *)
Definition min_timestamp : Z := -62135596800.
Definition max_timestamp : Z := 253402300799.

Definition fromtimestamp (t : Z) : option Z :=
  if (min_timestamp <=? t) && (t <=? max_timestamp)
  then Some (t * us_per_second) else None.

(** [delta.days] and [delta.seconds] of a normalised [timedelta]. *)
Definition timedelta_days (delta : Z) : Z := delta / us_per_day.
Definition timedelta_seconds (delta : Z) : Z :=
  (delta mod us_per_day) / us_per_second.

(** Year and month of a [datetime] in the proleptic Gregorian calendar. *)
Definition civil_year_month (d : Z) : Z * Z :=
  let z := d / us_per_day + 719468 in
  let era := z / 146097 in
  let doe := z mod 146097 in
  let yoe := (doe - doe / 1460 + doe / 36524 - doe / 146096) / 365 in
  let doy := doe - (365 * yoe + yoe / 4 - yoe / 100) in
  let mp := (5 * doy + 2) / 153 in
  let m := if mp <? 10 then mp + 3 else mp - 9 in
  let y := yoe + era * 400 in
  (if m <=? 2 then y + 1 else y, m).

Definition month_abbr (m : Z) : str :=
  nth (Z.to_nat (m - 1))
      (map lit ["Jan"; "Feb"; "Mar"; "Apr"; "May"; "Jun";
                "Jul"; "Aug"; "Sep"; "Oct"; "Nov"; "Dec"]%string)
      [].

(** [%Y]: the year in decimal, padded with zeros to four digits. *)
Definition year_digits (y : Z) : str :=
  repeat 48 (4 - length (str_of_int y))%nat ++ str_of_int y.

(** [date.strftime("%b %Y")] in the C locale. *)
Definition strftime_b_Y (d : Z) : str :=
  let (y, m) := civil_year_month d in
  month_abbr m ++ lit " " ++ year_digits y.

(** ** The wall clock *)

(** The clock is a sequence of readings in microseconds since the epoch;
    every call of [datetime.now(timezone.utc)] takes the next one. *)
Record world := { readings : nat -> Z; reads : nat }.

Definition utcnow (w : world) : Z * world :=
  (readings w (reads w), {| readings := readings w; reads := S (reads w) |}).

(** A clock that shows [t] at every reading. *)
Definition frozen (t : Z) : world := {| readings := fun _ => t; reads := 0 |}.

(** ** The profile data model *)

Module BadgeHighlight.
Record t := mk { name : str; level : option Z }.
End BadgeHighlight.

Module RecentGame.
Record t := mk { name : str; playtime_2weeks : Z }.
End RecentGame.

Record SteamProfile := {
  steamid : str;
  personaname : str;
  profileurl : str;
  avatarfull : str;
  avatar_data_uri : option str;
  realname : option str;
  loccountrycode : option str;
  timecreated : option Z;
  lastlogoff : option Z;
  personastate : Z;
  personastateflags : option Z;
  level : option Z;
  badge_highlights : list BadgeHighlight.t;
  recent_games : list RecentGame.t
}.

(** [d.get(key, default)] on a dictionary with [int] keys. *)
Fixpoint dict_get {V : Type} (d : list (Z * V)) (key : Z) (default : V) : V :=
  match d with
  | [] => default
  | (k, v) :: r => if k =? key then v else dict_get r key default
  end.

Definition states : list (Z * str) :=
  [ (0, lit "Offline");
    (1, lit "Online");
    (2, lit "Busy");
    (3, lit "Away");
    (4, lit "Snooze");
    (5, lit "Looking to Trade");
    (6, lit "Looking to Play") ].

Definition persona_state_label (p : SteamProfile) : str :=
  dict_get states (personastate p) (lit "Unknown").

Definition member_since (p : SteamProfile) : option str :=
  if negb (truthy_oint (timecreated p)) then None
  else match timecreated p with
       | None => None
       | Some t =>
         match fromtimestamp t with
         | None => None
         | Some date => Some (strftime_b_Y date)
         end
       end.

Definition last_seen (p : SteamProfile) (w : world) : option str * world :=
  if negb (truthy_oint (lastlogoff p)) then (None, w)
  else match lastlogoff p with
       | None => (None, w)
       | Some t =>
         let (now, w') := utcnow w in
         match fromtimestamp t with
         | None => (None, w')
         | Some logoff =>
           let delta := now - logoff in
           if 1 <=? timedelta_days delta then
             (Some (str_of_int (timedelta_days delta) ++ lit "d ago"), w')
           else
             let hours := timedelta_seconds delta / 3600 in
             if negb (hours =? 0) then
               (Some (str_of_int hours ++ lit "h ago"), w')
             else
               let minutes := Z.max 1 (timedelta_seconds delta / 60) in
               (Some (str_of_int minutes ++ lit "m ago"), w')
         end
       end.

Definition human_minutes (minutes : Z) : str :=
  let hours := minutes / 60 in
  let mins := minutes mod 60 in
  if negb (hours =? 0) && negb (mins =? 0) then
    str_of_int hours ++ lit "h " ++ str_of_int mins ++ lit "m"
  else if negb (hours =? 0) then str_of_int hours ++ lit "h"
  else str_of_int mins ++ lit "m".

(** ** [xml.sax.saxutils.escape] *)

(** [escape(data)] with no extra entities: three [replace] passes, in the
    order of the library. *)
Definition escape (data : str) : str :=
  let data := replace1 38 (lit "&amp;") data in
  let data := replace1 62 (lit "&gt;") data in
  let data := replace1 60 (lit "&lt;") data in
  data.

(** ** [base64.b64encode] *)

Definition b64_alphabet : str :=
  lit "ABCDEFGHIJKLMNOPQRSTUVWXYZabcdefghijklmnopqrstuvwxyz0123456789+/".

Definition b64_char (n : Z) : Z := nth (Z.to_nat (Z.land n 63)) b64_alphabet 0.

Definition byte_val (b : byte) : Z := Z.of_N (Byte.to_N b).

Fixpoint b64encode (data : bytes) : str :=
  match data with
  | [] => []
  | [a] =>
    let n := Z.shiftl (byte_val a) 16 in
    [b64_char (Z.shiftr n 18); b64_char (Z.shiftr n 12); 61; 61]
  | [a; b] =>
    let n := Z.lor (Z.shiftl (byte_val a) 16) (Z.shiftl (byte_val b) 8) in
    [b64_char (Z.shiftr n 18); b64_char (Z.shiftr n 12);
     b64_char (Z.shiftr n 6); 61]
  | a :: b :: c :: r =>
    let n := Z.lor (Z.shiftl (byte_val a) 16)
                   (Z.lor (Z.shiftl (byte_val b) 8) (byte_val c)) in
    b64_char (Z.shiftr n 18) :: b64_char (Z.shiftr n 12)
      :: b64_char (Z.shiftr n 6) :: b64_char n :: b64encode r
  end.

(** [s.encode("utf-8")]. Python raises on a lone surrogate, which gets its
    three-byte form here; the script encodes one ASCII literal only. *)
Definition byte_of (n : Z) : byte :=
  match Byte.of_N (Z.to_N (Z.land n 255)) with Some b => b | None => x00 end.

Definition encode_utf8_char (c : Z) : bytes :=
  if c <? 128 then [byte_of c]
  else if c <? 2048 then
    [byte_of (Z.lor 192 (Z.shiftr c 6)); byte_of (Z.lor 128 (Z.land c 63))]
  else if c <? 65536 then
    [byte_of (Z.lor 224 (Z.shiftr c 12));
     byte_of (Z.lor 128 (Z.land (Z.shiftr c 6) 63));
     byte_of (Z.lor 128 (Z.land c 63))]
  else
    [byte_of (Z.lor 240 (Z.shiftr c 18));
     byte_of (Z.lor 128 (Z.land (Z.shiftr c 12) 63));
     byte_of (Z.lor 128 (Z.land (Z.shiftr c 6) 63));
     byte_of (Z.lor 128 (Z.land c 63))].

Definition encode_utf8 (s : str) : bytes := flat_map encode_utf8_char s.

(** [s.decode("ascii")] of base64 output is the same text. *)

Definition _DEFAULT_AVATAR_SVG : str :=
  strip (lit "
<svg xmlns='http://www.w3.org/2000/svg' width='88' height='88' viewBox='0 0 88 88'>
  <defs>
    <linearGradient id='avatarGradient' x1='0' y1='0' x2='1' y2='1'>
      <stop offset='0%' stop-color='#1B2838'/>
      <stop offset='100%' stop-color='#3C9BD6'/>
    </linearGradient>
  </defs>
  <rect width='88' height='88' rx='18' fill='url(#avatarGradient)'/>
  <g fill='none' stroke='rgba(255,255,255,0.4)' stroke-width='2'>
    <circle cx='44' cy='36' r='16'/>
    <path d='M18 76c6-12 15-20 26-20s20 8 26 20' stroke-linecap='round'/>
  </g>
</svg>
").

Definition DEFAULT_AVATAR_DATA_URI : str :=
  Eval vm_compute in
  (lit "data:image/svg+xml;base64," ++ b64encode (encode_utf8 _DEFAULT_AVATAR_SVG)).

(** ** [textwrap.dedent] *)

(** The blanks of [dedent]: space and tab. *)
Definition is_blank (c : Z) : bool := (c =? 32) || (c =? 9).

Fixpoint leading_blanks (l : str) : str :=
  match l with
  | c :: r => if is_blank c then c :: leading_blanks r else []
  | [] => []
  end.

(** [l.startswith(m)], and [l] without the prefix [m]. *)
Fixpoint startswith (l m : str) {struct m} : bool :=
  match m, l with
  | [], _ => true
  | x :: m', y :: l' => (x =? y) && startswith l' m'
  | _ :: _, [] => false
  end.

Fixpoint common_prefix (a b : str) : str :=
  match a, b with
  | x :: a', y :: b' => if x =? y then x :: common_prefix a' b' else []
  | _, _ => []
  end.

(** One round of the loop that computes the margin. *)
Definition margin_step (margin : option str) (indent : str) : option str :=
  match margin with
  | None => Some indent
  | Some m =>
    if startswith indent m then Some m
    else if startswith m indent then Some indent
    else Some (common_prefix m indent)
  end.

Definition remove_margin (m l : str) : str :=
  if startswith l m then skipn (length m) l else l.

(** [textwrap.dedent(text)], line by line: lines of blanks only are emptied,
    the margin is the longest common run of leading blanks of the other
    non-empty lines, and it is removed from every line that starts with it. *)
Definition dedent (text : str) : str :=
  let lines :=
    map (fun l => if forallb is_blank l then [] else l) (split_on 10 text) in
  let indents := map leading_blanks (filter truthy_str lines) in
  match fold_left margin_step indents None with
  | Some m => if truthy_str m then join [10] (map (remove_margin m) lines)
              else join [10] lines
  | None => join [10] lines
  end.

(** ** The card renderer *)

(** The f-string of [render_svg] as a function of its replacement fields. *)
Definition card (avatar name level_text status info_line game0 time0
                 recent_lines badge0 badge_lines url : str) : str :=
  tpl "
        <svg width=`360` height=`260` viewBox=`0 0 360 260` fill=`none` xmlns=`http://www.w3.org/2000/svg`>
          <defs>
            <linearGradient id=`steamCardGradient` x1=`0` y1=`0` x2=`1` y2=`1`>
              <stop offset=`0%` stop-color=`#0B141C` />
              <stop offset=`45%` stop-color=`#13283D` />
              <stop offset=`100%` stop-color=`#1E405F` />
            </linearGradient>
            <filter id=`steamCardShadow` x=`-20%` y=`-20%` width=`140%` height=`140%`>
              <feDropShadow dx=`0` dy=`14` stdDeviation=`18` flood-color=`#040A14` flood-opacity=`0.55` />
            </filter>
            <clipPath id=`avatarClip`>
              <rect x=`24` y=`26` width=`88` height=`88` rx=`18` />
            </clipPath>
          </defs>
          <g filter=`url(#steamCardShadow)`>
            <rect x=`0` y=`0` width=`360` height=`260` rx=`22` fill=`url(#steamCardGradient)` stroke=`rgba(102,192,244,0.35)` />
          </g>
          <image href=`"
  ++ avatar
  ++ tpl "` x=`24` y=`26` width=`88` height=`88` clip-path=`url(#avatarClip)` preserveAspectRatio=`xMidYMid slice` />
          <rect x=`24` y=`26` width=`88` height=`88` rx=`18` fill=`rgba(15, 29, 44, 0.4)` stroke=`rgba(102,192,244,0.45)` />
          <g transform=`translate(128 40)` font-family=`'Segoe UI', 'Inter', sans-serif`>
            <text x=`0` y=`0` font-size=`24` font-weight=`700` fill=`#F5FAFF`>"
  ++ name
  ++ tpl "</text>
            <text x=`0` y=`18` font-size=`12` fill=`#90ABC4`>"
  ++ level_text
  ++ tpl "</text>
            <text x=`0` y=`38` font-size=`12` fill=`#6E8BA8`>"
  ++ status
  ++ tpl "</text>
            <text x=`0` y=`58` font-size=`11` fill=`#4DA6DA`>"
  ++ info_line
  ++ tpl "</text>
          </g>
          <g transform=`translate(24 136)` font-family=`'Segoe UI', 'Inter', sans-serif`>
            <rect width=`312` height=`52` rx=`16` fill=`rgba(15, 29, 44, 0.7)` stroke=`rgba(102,192,244,0.3)` />
            <text x=`20` y=`24` font-size=`13` font-weight=`600` fill=`#66C0F4`>Recent playtime</text>
            <text x=`20` y=`36` font-size=`12` fill=`#B5D8F2`>
              <tspan x=`20` dy=`0`>"
  ++ game0
  ++ lit " — "
  ++ time0
  ++ lit "</tspan>
              "
  ++ recent_lines
  ++ tpl "
            </text>
          </g>
          <g transform=`translate(24 196)` font-family=`'Segoe UI', 'Inter', sans-serif`>
            <rect width=`312` height=`52` rx=`16` fill=`rgba(12, 24, 36, 0.65)` stroke=`rgba(102,192,244,0.3)` />
            <text x=`20` y=`24` font-size=`13` font-weight=`600` fill=`#66C0F4`>Badge highlights</text>
            <text x=`20` y=`36` font-size=`12` fill=`#B5D8F2`>
              <tspan x=`20` dy=`0`>"
  ++ badge0
  ++ lit "</tspan>
              "
  ++ badge_lines
  ++ tpl "
            </text>
          </g>
          <a href=`"
  ++ url
  ++ tpl "` target=`_blank` rel=`noreferrer`>
            <rect x=`260` y=`30` width=`76` height=`30` rx=`10` fill=`rgba(18, 42, 60, 0.75)` stroke=`rgba(102,192,244,0.4)` />
            <text x=`298` y=`50` font-family=`'Segoe UI', 'Inter', sans-serif` font-size=`11` font-weight=`600` fill=`#F5FAFF` text-anchor=`middle`>View</text>
          </a>
        </svg>
        ".

Definition no_recent_games : RecentGame.t :=
  RecentGame.mk (lit "No recent games") 0.

Definition collector : BadgeHighlight.t :=
  BadgeHighlight.mk (lit "Collector") None.

Definition badge_label (badge : BadgeHighlight.t) : str :=
  let label := BadgeHighlight.name badge in
  if truthy_oint (BadgeHighlight.level badge) then
    label ++ lit " · Lv"
      ++ match BadgeHighlight.level badge with
         | Some n => str_of_int n
         | None => lit "None"
         end
  else label.

(** [f"{x}"] for an [Optional[str]]. *)
Definition format_ostr (o : option str) : str :=
  match o with Some s => s | None => lit "None" end.

(** The lists [recent] and [badges] of [render_svg]. *)
Definition shown_games (profile : SteamProfile) : list RecentGame.t :=
  let recent := firstn 3 (recent_games profile) in
  match recent with [] => [no_recent_games] | _ => recent end.

Definition shown_badges (profile : SteamProfile) : list BadgeHighlight.t :=
  let badges := firstn 3 (badge_highlights profile) in
  match badges with [] => [collector] | _ => badges end.

Definition recent_line (game : RecentGame.t) : str :=
  lit "<tspan x='20' dy='16'>" ++ escape (RecentGame.name game) ++ lit " — "
    ++ human_minutes (RecentGame.playtime_2weeks game) ++ lit "</tspan>".

Definition badge_line (badge : BadgeHighlight.t) : str :=
  lit "<tspan x='20' dy='16'>" ++ escape (badge_label badge) ++ lit "</tspan>".

(** The variable [status] of [render_svg]; [last_seen] is read once for the
    test and once more for the text. *)
Definition status_text (profile : SteamProfile) (w : world) : str * world :=
  let status := persona_state_label profile in
  let (seen, w1) := last_seen profile w in
  if truthy_ostr seen && (personastate profile =? 0) then
    let (seen', w2) := last_seen profile w1 in
    (status ++ lit " (" ++ format_ostr seen' ++ lit ")", w2)
  else (status, w1).

(** ** The avatar fetcher *)

(** A call either returns a value or raises an exception. *)
Inductive outcome (A : Type) : Type :=
| Returns (a : A)
| Raises.
Arguments Returns {A} a.
Arguments Raises {A}.

Definition bind {A B : Type} (m : outcome A) (f : A -> outcome B) : outcome B :=
  match m with Returns a => f a | Raises => Raises end.

(** [try: body  except Exception: return handler] *)
Definition try_except {A : Type} (body : outcome A) (handler : A) : A :=
  match body with Returns a => a | Raises => handler end.

(** What the script reads from a [requests.Response]: the status code,
    [response.content] and [response.headers.get("Content-Type")]. *)
Record Response := {
  status_code : Z;
  content : bytes;
  content_type : option str
}.

(** [response.raise_for_status()]: [HTTPError] for the client errors 4xx and
    the server errors 5xx. *)
Definition raise_for_status (r : Response) : outcome unit :=
  if (400 <=? status_code r) && (status_code r <? 600) then Raises
  else Returns tt.

(** [session.get(url, timeout=15)] of a [requests.Session]. *)
Definition Session := str -> outcome Response.

(** [urlopen(url, timeout=15)] followed by [fh.read()] and the lookup of the
    [Content-Type] header; [urlopen] raises on every status that is not 2xx. *)
Definition Urlopen := str -> outcome (bytes * option str).

Section Fetcher.

(** [mimetypes.guess_type(url)[0]]: the type the extension of [url] stands
    for, if the table of the platform knows it. *)
Variable guess_type : str -> option str.

Definition _normalize_content_type (header : option str) (url : str) : str :=
  let from_url := or_str (guess_type url) (lit "image/jpeg") in
  match header with
  | Some h =>
    if truthy_str h then
      let ctype := strip (before_first 59 h) in
      if truthy_str ctype then ctype else from_url
    else from_url
  | None => from_url
  end.

(** The body of the [try] statement: the bytes and the declared content
    type, or [None] for the [return None] of the last branch. *)
Definition fetch_avatar_try (session : option Session) (urlopen : option Urlopen)
    (url : str) : outcome (option (bytes * option str)) :=
  match session with
  | Some get =>
    bind (get url) (fun response =>
    bind (raise_for_status response) (fun _ =>
    Returns (Some (content response, content_type response))))
  | None =>
    match urlopen with
    | Some open => bind (open url) (fun r => Returns (Some r))
    | None => Returns None
    end
  end.

Definition fetch_avatar_data (session : option Session) (urlopen : option Urlopen)
    (url : str) : outcome (option str) :=
  if negb (truthy_str url) then Returns None
  else
    match try_except (fetch_avatar_try session urlopen url) None with
    | None => Returns None
    | Some (data, content_type) =>
      match data with
      | [] => Returns None
      | _ =>
        let ctype := _normalize_content_type content_type url in
        Returns (Some (lit "data:" ++ ctype ++ lit ";base64," ++ b64encode data))
      end
    end.

End Fetcher.

(** ** The cache codec *)

(** The values [json.load] builds and [json.dump] accepts (numbers with a
    fraction are left out). *)
#[warnings="-register-all"]
Inductive json : Type :=
| JNull
| JBool (b : bool)
| JInt (n : Z)
| JStr (s : str)
| JList (l : list json)
| JDict (d : list (str * json)).

Fixpoint str_eqb (a b : str) : bool :=
  match a, b with
  | [], [] => true
  | x :: a', y :: b' => (x =? y) && str_eqb a' b'
  | _, _ => false
  end.

(** [d.get(key, default)] on a dictionary with [str] keys. *)
Fixpoint get (d : list (str * json)) (key : string) (default : json) : json :=
  match d with
  | [] => default
  | (k, v) :: r => if str_eqb k (lit key) then v else get r key default
  end.

(** The files of the cache: the JSON document stored under each path.
    [json.dump] followed by [json.load] gives the document back. *)
Definition filesystem := str -> option json.

Definition write_json (path : str) (doc : json) (fs : filesystem) : filesystem :=
  fun q => if str_eqb q path then Some doc else fs q.

Notation "'do' x <- m ; k" :=
  (match m with Some x => k | None => None end)
  (at level 10, x name, m at level 100, k at level 200).

(** The annotations of the dataclasses: a loaded value of another type is
    outside the typed records ([None]). *)
Definition as_str (v : json) : option str :=
  match v with JStr s => Some s | _ => None end.

Definition as_int (v : json) : option Z :=
  match v with JInt n => Some n | _ => None end.

Definition as_optional_str (v : json) : option (option str) :=
  match v with JNull => Some None | JStr s => Some (Some s) | _ => None end.

Definition as_optional_int (v : json) : option (option Z) :=
  match v with JNull => Some None | JInt n => Some (Some n) | _ => None end.

(** [str(v)]; the [repr] of lists and dictionaries is not modelled. *)
Definition py_str (v : json) : option str :=
  match v with
  | JStr s => Some s
  | JInt n => Some (str_of_int n)
  | JBool true => Some (lit "True")
  | JBool false => Some (lit "False")
  | JNull => Some (lit "None")
  | _ => None
  end.

(** [int(v or 0)]; [int] of a non-empty string parses it, which is not
    modelled, and raises on a non-empty list or dictionary. *)
Definition int_or_0 (v : json) : option Z :=
  match v with
  | JInt n => Some n
  | JBool b => Some (if b then 1 else 0)
  | JNull | JStr [] | JList [] | JDict [] => Some 0
  | _ => None
  end.

(** The items a [for] loop takes from a loaded value; [TypeError] otherwise. *)
Definition iter_items (v : json) : option (list json) :=
  match v with
  | JList l => Some l
  | JStr s => Some (map (fun c => JStr [c]) s)
  | JDict d => Some (map (fun kv => JStr (fst kv)) d)
  | _ => None
  end.

(** [item.get] needs a dictionary ([AttributeError] otherwise). *)
Definition as_dict (v : json) : option (list (str * json)) :=
  match v with JDict d => Some d | _ => None end.

Fixpoint traverse {A B : Type} (f : A -> option B) (l : list A) : option (list B) :=
  match l with
  | [] => Some []
  | x :: r => do y <- f x; do ys <- traverse f r; Some (y :: ys)
  end.

Definition load_badge (item : json) : option BadgeHighlight.t :=
  do item <- as_dict item;
  do name <- as_str (get item "name" (JStr (lit "Badge")));
  do level <- as_optional_int (get item "level" JNull);
  Some (BadgeHighlight.mk name level).

Definition load_game (item : json) : option RecentGame.t :=
  do item <- as_dict item;
  do name <- as_str (get item "name" (JStr (lit "Unknown")));
  do playtime <- as_int (get item "playtime_2weeks" (JInt 0));
  Some (RecentGame.mk name playtime).

(** [load_cached_profile(path)]: [None] when the file is missing, when an
    operation raises, or when a field gets a value outside its annotation. *)
Definition load_cached_profile (path : str) (fs : filesystem) : option SteamProfile :=
  do doc <- fs path;
  do raw <- as_dict doc;
  do badge_items <- iter_items (get raw "badge_highlights" (JList []));
  do badge_highlights <- traverse load_badge badge_items;
  do game_items <- iter_items (get raw "recent_games" (JList []));
  do recent_games <- traverse load_game game_items;
  do steamid <- py_str (get raw "steamid" (JStr []));
  do personaname <- as_str (get raw "personaname" (JStr (lit "Unknown")));
  do profileurl <- as_str (get raw "profileurl" (JStr (lit "https://steamcommunity.com")));
  do avatarfull <- as_str (get raw "avatarfull" (JStr []));
  do avatar_data_uri <- as_optional_str (get raw "avatar_data_uri" JNull);
  do realname <- as_optional_str (get raw "realname" JNull);
  do loccountrycode <- as_optional_str (get raw "loccountrycode" JNull);
  do timecreated <- as_optional_int (get raw "timecreated" JNull);
  do lastlogoff <- as_optional_int (get raw "lastlogoff" JNull);
  do personastate <- int_or_0 (get raw "personastate" (JInt 0));
  do personastateflags <- as_optional_int (get raw "personastateflags" JNull);
  do level <- as_optional_int (get raw "level" JNull);
  Some {| steamid := steamid;
          personaname := personaname;
          profileurl := profileurl;
          avatarfull := avatarfull;
          avatar_data_uri := avatar_data_uri;
          realname := realname;
          loccountrycode := loccountrycode;
          timecreated := timecreated;
          lastlogoff := lastlogoff;
          personastate := personastate;
          personastateflags := personastateflags;
          level := level;
          badge_highlights := badge_highlights;
          recent_games := recent_games |}.

Definition json_ostr (o : option str) : json :=
  match o with Some s => JStr s | None => JNull end.

Definition json_oint (o : option Z) : json :=
  match o with Some n => JInt n | None => JNull end.

(** The dictionary [data] of [save_profile_cache]. *)
Definition cache_data (profile : SteamProfile) : list (str * json) :=
  [ (lit "steamid", JStr (steamid profile));
    (lit "personaname", JStr (personaname profile));
    (lit "profileurl", JStr (profileurl profile));
    (lit "avatarfull", JStr (avatarfull profile));
    (lit "avatar_data_uri", json_ostr (avatar_data_uri profile));
    (lit "realname", json_ostr (realname profile));
    (lit "loccountrycode", json_ostr (loccountrycode profile));
    (lit "timecreated", json_oint (timecreated profile));
    (lit "lastlogoff", json_oint (lastlogoff profile));
    (lit "personastate", JInt (personastate profile));
    (lit "personastateflags", json_oint (personastateflags profile));
    (lit "level", json_oint (level profile));
    (lit "badge_highlights",
     JList (map (fun badge =>
                   JDict [ (lit "name", JStr (BadgeHighlight.name badge));
                           (lit "level", json_oint (BadgeHighlight.level badge)) ])
                (badge_highlights profile)));
    (lit "recent_games",
     JList (map (fun game =>
                   JDict [ (lit "name", JStr (RecentGame.name game));
                           (lit "playtime_2weeks", JInt (RecentGame.playtime_2weeks game)) ])
                (recent_games profile))) ].

Definition save_profile_cache (profile : SteamProfile) (path : str)
    (fs : filesystem) : filesystem :=
  write_json path (JDict (cache_data profile)) fs.

Section Showcase.

(** [str.upper] on one code point outside ASCII: the upper-case mapping of
    the Unicode database, which may give several code points. *)
Variable unicode_upper : Z -> str.

Definition upper_char (c : Z) : str :=
  if (97 <=? c) && (c <=? 122) then [c - 32]
  else if c <? 128 then [c]
  else unicode_upper c.

(** [s.upper()] *)
Definition upper (s : str) : str := flat_map upper_char s.

Definition country_flag (p : SteamProfile) : option str :=
  if negb (truthy_ostr (loccountrycode p)) then None
  else match loccountrycode p with
       | None => None
       | Some c =>
         let code := upper c in
         if negb (Nat.eqb (length code) 2) then None
         else
           let base := 127462 in
           join_chr (map (fun ch => chr (base + ch - 65)) code)
       end.

(** The variable [info_line] of [render_svg]. *)
Definition info_line_of (profile : SteamProfile) : str :=
  let info_lines :=
    (if truthy_ostr (realname profile) then [format_ostr (realname profile)] else [])
    ++ (let flag := country_flag profile in
        if truthy_ostr flag then [format_ostr flag] else [])
    ++ (if truthy_ostr (member_since profile)
        then [lit "Member since " ++ format_ostr (member_since profile)]
        else []) in
  join (lit "  ·  ") info_lines.

Definition render_svg (profile : SteamProfile) (w : world) : str * world :=
  let recent := shown_games profile in
  let badges := shown_badges profile in
  let info_line := info_line_of profile in
  let recent_lines := concat (map recent_line (tl recent)) in
  let badge_lines := concat (map badge_line (tl badges)) in
  let (status, w') := status_text profile w in
  let avatar := escape (or_str (avatar_data_uri profile) DEFAULT_AVATAR_DATA_URI) in
  let level_text :=
    match level profile with
    | Some n => lit "Level " ++ str_of_int n
    | None => lit "Level hidden"
    end in
  let recent0 := hd no_recent_games recent in
  let badges0 := hd collector badges in
  (strip (dedent (card avatar
                       (escape (personaname profile))
                       (escape level_text)
                       (escape status)
                       (escape info_line)
                       (escape (RecentGame.name recent0))
                       (human_minutes (RecentGame.playtime_2weeks recent0))
                       recent_lines
                       (escape (badge_label badges0))
                       badge_lines
                       (escape (profileurl profile)))),
   w').

End Showcase.

(** ** The Steam Web API *)

Definition API_BASE : str := lit "https://api.steampowered.com".

(** What the script reads from the response to an API request: the
    response as before, and the value of [response.json()], which raises
    when the body is not JSON. *)
Record HttpResponse := {
  http_response : Response;
  http_json : outcome json
}.

(** [session.get(url, params=params, timeout=15)] of a [requests.Session];
    a request without [params] has the empty list. No request is sent
    twice in a run, so that a function of the request stands for the
    session. *)
Definition Http := str -> list (str * json) -> outcome HttpResponse.

(** The session as [fetch_avatar_data] uses it. *)
Definition avatar_session (session : Http) : Session :=
  fun url => bind (session url []) (fun r => Returns (http_response r)).

(** The result of code that handles loaded values: a value, an exception,
    or [Untyped] when a field would get a value outside its annotation, in
    which case the model says nothing of what follows. *)
Inductive py (A : Type) : Type :=
| Val (a : A)
| Exc
| Untyped.
Arguments Val {A} a.
Arguments Exc {A}.
Arguments Untyped {A}.

Definition py_bind {A B : Type} (m : py A) (f : A -> py B) : py B :=
  match m with Val a => f a | Exc => Exc | Untyped => Untyped end.

Notation "'run' x <- m ; k" :=
  (py_bind m (fun x => k))
  (at level 10, x name, m at level 100, k at level 200).

Definition raised {A : Type} (o : outcome A) : py A :=
  match o with Returns a => Val a | Raises => Exc end.

Definition typed {A : Type} (o : option A) : py A :=
  match o with Some a => Val a | None => Untyped end.

Fixpoint py_traverse {A B : Type} (f : A -> py B) (l : list A) : py (list B) :=
  match l with
  | [] => Val []
  | x :: r => run y <- f x; run ys <- py_traverse f r; Val (y :: ys)
  end.

(** Truth value of a loaded value. *)
Definition truthy (v : json) : bool :=
  match v with
  | JNull => false
  | JBool b => b
  | JInt n => negb (n =? 0)
  | JStr s => truthy_str s
  | JList l => match l with [] => false | _ => true end
  | JDict d => match d with [] => false | _ => true end
  end.

(** [v.get(key, default)]: [AttributeError] when [v] is no dictionary. *)
Definition attr_get (v : json) (key : string) (default : json) : py json :=
  match v with JDict d => Val (get d key default) | _ => Exc end.

(** [v != 1]: [True] equals 1. *)
Definition differs_from_1 (v : json) : bool :=
  match v with
  | JInt n => negb (n =? 1)
  | JBool b => negb b
  | _ => true
  end.

(** [v[0]] for a value that is true: the first item of a list, the first
    character of a string, an exception otherwise. *)
Definition first_item (v : json) : py json :=
  match v with
  | JList (x :: _) => Val x
  | JStr (c :: _) => Val (JStr [c])
  | _ => Exc
  end.

(** [v[:3]]: defined on lists and strings. *)
Definition first_three (v : json) : py json :=
  match v with
  | JList l => Val (JList (firstn 3 l))
  | JStr s => Val (JStr (firstn 3 s))
  | _ => Exc
  end.

(** The items of a [for] loop, [TypeError] when there are none to take. *)
Definition for_items (v : json) : py (list json) :=
  match iter_items v with Some l => Val l | None => Exc end.

Definition fetch_json (session : Http) (path : str) (params : list (str * json))
    : py json :=
  run response <- raised (session (API_BASE ++ path) params);
  run _ <- raised (raise_for_status (http_response response));
  raised (http_json response).

Definition resolve_vanity (session : Http) (api_key vanity : str) : py str :=
  run data <- fetch_json session (lit "/ISteamUser/ResolveVanityURL/v1/")
                [ (lit "key", JStr api_key); (lit "vanityurl", JStr vanity) ];
  run response <- attr_get data "response" (JDict []);
  run success <- attr_get response "success" JNull;
  if differs_from_1 success then Exc
  else
    run steamid <- attr_get response "steamid" JNull;
    if negb (truthy steamid) then Exc
    else typed (py_str steamid).

(** One round of the loop over the badges. *)
Definition fetch_badge (badge : json) : py BadgeHighlight.t :=
  run name <- attr_get badge "name" JNull;
  run name <- (if truthy name then Val name
               else run description <- attr_get badge "description" JNull;
                    Val (if truthy description then description
                         else JStr (lit "Badge")));
  run level <- attr_get badge "level" JNull;
  run name <- typed (as_str name);
  run level <- typed (as_optional_int level);
  Val (BadgeHighlight.mk name level).

Definition fetch_game (game : json) : py RecentGame.t :=
  run name <- attr_get game "name" (JStr (lit "Unknown"));
  run playtime <- attr_get game "playtime_2weeks" (JInt 0);
  run name <- typed (as_str name);
  run playtime <- typed (as_int playtime);
  Val (RecentGame.mk name playtime).

Section Api.

Variable unicode_upper : Z -> str.
Variable guess_type : str -> option str.
Variable urlopen : option Urlopen.

Definition fetch_profile (session : Http) (api_key steamid : str)
    : py SteamProfile :=
  run summary <- fetch_json session (lit "/ISteamUser/GetPlayerSummaries/v2/")
                   [ (lit "key", JStr api_key); (lit "steamids", JStr steamid) ];
  run response <- attr_get summary "response" (JDict []);
  run players <- attr_get response "players" (JList []);
  if negb (truthy players) then Exc
  else
    run player <- first_item players;
    run level_data <- fetch_json session (lit "/IPlayerService/GetSteamLevel/v1/")
                        [ (lit "key", JStr api_key); (lit "steamid", JStr steamid) ];
    run response <- attr_get level_data "response" (JDict []);
    run level <- attr_get response "player_level" JNull;
    run badge_data <- fetch_json session (lit "/IPlayerService/GetBadges/v1/")
                        [ (lit "key", JStr api_key); (lit "steamid", JStr steamid) ];
    run response <- attr_get badge_data "response" (JDict []);
    run badges <- attr_get response "badges" (JList []);
    let badges := if truthy badges then badges else JList [] in
    run badges <- first_three badges;
    run badges <- for_items badges;
    run badge_highlights <- py_traverse fetch_badge badges;
    run recent_data <- fetch_json session
                         (lit "/IPlayerService/GetRecentlyPlayedGames/v1/")
                         [ (lit "key", JStr api_key); (lit "steamid", JStr steamid);
                           (lit "count", JInt 3) ];
    run response <- attr_get recent_data "response" (JDict []);
    run games <- attr_get response "games" (JList []);
    let recent_games_raw := if truthy games then games else JList [] in
    run games <- for_items recent_games_raw;
    run recent_games <- py_traverse fetch_game games;
    run url <- attr_get player "avatarfull" (JStr []);
    run url <- typed (as_str url);
    run avatar_data_uri <-
      raised (fetch_avatar_data guess_type (Some (avatar_session session))
                urlopen url);
    run steamid' <- attr_get player "steamid" JNull;
    run steamid' <- typed (py_str steamid');
    run personaname <- attr_get player "personaname" (JStr (lit "Unknown"));
    run personaname <- typed (as_str personaname);
    run profileurl <-
      attr_get player "profileurl"
        (JStr (lit "https://steamcommunity.com/profiles/" ++ steamid));
    run profileurl <- typed (as_str profileurl);
    run avatarfull <- attr_get player "avatarfull" (JStr []);
    run avatarfull <- typed (as_str avatarfull);
    run realname <- attr_get player "realname" JNull;
    run realname <- typed (as_optional_str realname);
    run loccountrycode <- attr_get player "loccountrycode" JNull;
    run loccountrycode <- typed (as_optional_str loccountrycode);
    run timecreated <- attr_get player "timecreated" JNull;
    run timecreated <- typed (as_optional_int timecreated);
    run lastlogoff <- attr_get player "lastlogoff" JNull;
    run lastlogoff <- typed (as_optional_int lastlogoff);
    run personastate <- attr_get player "personastate" (JInt 0);
    run personastate <- typed (int_or_0 personastate);
    run personastateflags <- attr_get player "personastateflags" JNull;
    run personastateflags <- typed (as_optional_int personastateflags);
    run level <- typed (as_optional_int level);
    Val {| steamid := steamid';
           personaname := personaname;
           profileurl := profileurl;
           avatarfull := avatarfull;
           avatar_data_uri := avatar_data_uri;
           realname := realname;
           loccountrycode := loccountrycode;
           timecreated := timecreated;
           lastlogoff := lastlogoff;
           personastate := personastate;
           personastateflags := personastateflags;
           level := level;
           badge_highlights := badge_highlights;
           recent_games := recent_games |}.

(** ** The command *)

(** The parsed arguments. *)
Record Args := {
  arg_vanity : option str;
  arg_steamid : option str;
  arg_api_key : option str;
  arg_output : str;
  arg_cache : option str;
  arg_write_cache : option str
}.






(** The body of the [try] statement of [main]. *)
Definition live_profile (session : Http) (api_key : str) (args : Args)
    : py SteamProfile :=
  run steamid <-
    (if truthy_ostr (arg_steamid args) then typed (arg_steamid args)
     else if truthy_ostr (arg_vanity args) then
       run vanity <- typed (arg_vanity args);
       resolve_vanity session api_key vanity
     else Val []);
  if negb (truthy_str steamid) then Exc
  else fetch_profile session api_key steamid.




End Api.

(** ** Vocabulary of the statements *)

(** *** Sample inputs *)

(** A profile with nothing in it. *)
Definition bare_profile : SteamProfile :=
  {| steamid := []; personaname := []; profileurl := []; avatarfull := [];
     avatar_data_uri := None; realname := None; loccountrycode := None;
     timecreated := None; lastlogoff := None; personastate := 0;
     personastateflags := None; level := None;
     badge_highlights := []; recent_games := [] |}.

(** The bare profile with the two timestamps and the state filled in. *)
Definition with_times (created logoff : option Z) (state : Z) : SteamProfile :=
  {| steamid := []; personaname := []; profileurl := []; avatarfull := [];
     avatar_data_uri := None; realname := None; loccountrycode := None;
     timecreated := created; lastlogoff := logoff; personastate := state;
     personastateflags := None; level := None;
     badge_highlights := []; recent_games := [] |}.

(** The bare profile with a country code. *)
Definition with_country (code : option str) : SteamProfile :=
  {| steamid := []; personaname := []; profileurl := []; avatarfull := [];
     avatar_data_uri := None; realname := None; loccountrycode := code;
     timecreated := None; lastlogoff := None; personastate := 0;
     personastateflags := None; level := None;
     badge_highlights := []; recent_games := [] |}.



(** A profile with five badges, five games and no optional field. *)
Definition five_of_each : SteamProfile :=
  {| steamid := lit "76561198000000000"; personaname := lit "gamer";
     profileurl := lit "https://steamcommunity.com/id/gamer/";
     avatarfull := lit "https://avatars.example/full.jpg";
     avatar_data_uri := None; realname := None; loccountrycode := None;
     timecreated := None; lastlogoff := None; personastate := 0;
     personastateflags := None; level := None;
     badge_highlights :=
       [ BadgeHighlight.mk (lit "One") (Some 1); BadgeHighlight.mk (lit "Two") None;
         BadgeHighlight.mk (lit "Three") (Some 0); BadgeHighlight.mk (lit "Four") (Some 4);
         BadgeHighlight.mk (lit "Five") None ];
     recent_games :=
       [ RecentGame.mk (lit "A") 125; RecentGame.mk (lit "B") 120;
         RecentGame.mk (lit "C") 45; RecentGame.mk (lit "D") 0;
         RecentGame.mk (lit "E") 7 ] |}.

(** A profile whose URL holds a double quote. *)
Definition quoted_url : SteamProfile :=
  {| steamid := lit "76561198000000000"; personaname := lit "a";
     profileurl := tpl "x` onclick=`y"; avatarfull := [];
     avatar_data_uri := None; realname := None; loccountrycode := None;
     timecreated := None; lastlogoff := None; personastate := 1;
     personastateflags := None; level := None;
     badge_highlights := []; recent_games := [] |}.


(** A case table that leaves every character outside ASCII as it is. *)
Definition caseless : Z -> str := fun c => [c].

(** A session whose every request ends the same way, a table of types that
    knows no extension, and a response with a declared type. *)
Definition always (r : outcome Response) : Session := fun _ => r.

Definition no_guess : str -> option str := fun _ => None.

Definition png_response : Response :=
  {| status_code := 200; content := [x41; x42; x43];
     content_type := Some (lit "image/png; charset=binary") |}.

(** *** Timestamps and flags *)

Definition us_per_hour : Z := 3600 * us_per_second.
Definition us_per_minute : Z := 60 * us_per_second.

(** The tiers of the relative age, on an age in microseconds: days from one
    day on, else hours from one hour on, else minutes, at least one. *)
Definition relative_age (age : Z) : str :=
  if us_per_day <=? age then str_of_int (age / us_per_day) ++ lit "d ago"
  else if us_per_hour <=? age then str_of_int (age / us_per_hour) ++ lit "h ago"
  else str_of_int (Z.max 1 (age / us_per_minute)) ++ lit "m ago".

(** The result of [last_seen] when the clock shows [now]. *)
Definition last_seen_at (p : SteamProfile) (now : Z) : option str :=
  fst (last_seen p (frozen now)).

(** ASCII letters, the capital of a letter, and the regional indicator
    symbol of a capital. *)
Definition is_letter (c : Z) : Prop :=
  (65 <= c <= 90) \/ (97 <= c <= 122).

Definition capital (c : Z) : Z := if (97 <=? c) && (c <=? 122) then c - 32 else c.

Definition regional_indicator (letter : Z) : Z := 127462 + (letter - 65).

(** *** The cache and the avatar *)


(** The type a [Content-Type] header declares: what stands before the
    first semicolon, without the white space around it. *)
Definition declared_type (header : option str) : str :=
  match header with Some h => strip (before_first 59 h) | None => [] end.

(** The content type of the data URI: the declared type when the header
    holds one, else the type guessed from the URL, else [image/jpeg]. *)
Definition chosen_type (guess : str -> option str) (header : option str)
    (url : str) : str :=
  if truthy_str (declared_type header) then declared_type header
  else match guess url with
       | Some g => if truthy_str g then g else lit "image/jpeg"
       | None => lit "image/jpeg"
       end.

(** *** Texts *)


(** [infix x s]: the text [x] occurs in [s]; [occurs] decides it. *)
Definition infix (x s : str) : Prop := exists pre post, s = pre ++ x ++ post.

Fixpoint occurs (x s : str) : bool :=
  startswith s x || match s with [] => false | _ :: r => occurs x r end.

(** A text without line feed. *)
Definition one_line (s : str) : Prop := Forall (fun c => c <> 10) s.

(** Characters that are neither a line feed nor one of the three
    characters [escape] replaces, with the check by computation. *)
Definition tame (c : Z) : Prop := c <> 10 /\ c <> 38 /\ c <> 60 /\ c <> 62.

Definition tameb (c : Z) : bool :=
  negb ((c =? 10) || (c =? 38) || (c =? 60) || (c =? 62)).

(** What [escape] puts in the place of one character. *)
Definition escape_char (c : Z) : str :=
  if c =? 38 then lit "&amp;"
  else if c =? 62 then lit "&gt;"
  else if c =? 60 then lit "&lt;"
  else [c].



(** [removes_space s t]: [t] is [s] without some of its white space. *)
Inductive removes_space : str -> str -> Prop :=
| rs_nil : removes_space [] []
| rs_keep : forall c s t, removes_space s t -> removes_space (c :: s) (c :: t)
| rs_drop : forall c s t, isspace c = true -> removes_space s t ->
                          removes_space (c :: s) t.

(** A margin of [dedent], if there is one, is made of blanks. *)
Definition blank_margin (m : option str) : Prop :=
  match m with Some x => forallb is_blank x = true | None => True end.

(** The text after the first separator, and the text before the last one. *)
Fixpoint after_first (sep : Z) (s : str) : str :=
  match s with
  | [] => []
  | c :: r => if c =? sep then r else after_first sep r
  end.

Definition before_last (sep : Z) (s : str) : str :=
  rev (after_first sep (rev s)).

(** *** The card *)

(** The elements of the card that hold the display name, the status, the
    first game and the first badge. *)
Definition text_close : str := lit "</text>".
Definition tspan_close : str := lit "</tspan>".
Definition tspan_open : str := tpl "<tspan x=`20` dy=`0`>".
Definition link_open : str := tpl "<a href=`".
Definition link_rest : str := tpl "` target=`_blank` rel=`noreferrer`>".

Definition first_game_element (game time : str) : str :=
  tspan_open ++ (game ++ lit " — " ++ time) ++ tspan_close.
Definition first_badge_element (label : str) : str :=
  tspan_open ++ label ++ tspan_close.

(** The variable [level_text] of [render_svg]. *)
Definition level_text_of (profile : SteamProfile) : str :=
  match level profile with
  | Some n => lit "Level " ++ str_of_int n
  | None => lit "Level hidden"
  end.

(** The text [render_svg] hands to [dedent]. *)
Definition card_of (up : Z -> str) (profile : SteamProfile) (w : world) : str :=
  card (escape (or_str (avatar_data_uri profile) DEFAULT_AVATAR_DATA_URI))
       (escape (personaname profile))
       (escape (level_text_of profile))
       (escape (fst (status_text profile w)))
       (escape (info_line_of up profile))
       (escape (RecentGame.name (hd no_recent_games (shown_games profile))))
       (human_minutes
          (RecentGame.playtime_2weeks (hd no_recent_games (shown_games profile))))
       (concat (map recent_line (tl (shown_games profile))))
       (escape (badge_label (hd collector (shown_badges profile))))
       (concat (map badge_line (tl (shown_badges profile))))
       (escape (profileurl profile)).

(** *** The API *)

(** A response with status 200 whose body is the document [doc]. *)
Definition json_reply (doc : json) : outcome HttpResponse :=
  Returns {| http_response := {| status_code := 200; content := [];
                                 content_type := None |};
             http_json := Returns doc |}.

(** A sample of the API: a player with five badges and two games, whose
    vanity name resolves, and an avatar of three bytes. *)
Definition sample_player : json :=
  JDict [ (lit "steamid", JStr (lit "76561198000000000"));
          (lit "personaname", JStr (lit "gamer"));
          (lit "avatarfull", JStr (lit "https://avatars.example/full.jpg"));
          (lit "personastate", JInt 1);
          (lit "loccountrycode", JStr (lit "FR")) ].

Definition sample_badges : json :=
  JList [ JDict [ (lit "name", JStr (lit "One")); (lit "level", JInt 1) ];
          JDict [ (lit "description", JStr (lit "Two")) ];
          JDict [ (lit "name", JStr []); (lit "level", JInt 3) ];
          JDict [ (lit "name", JStr (lit "Four")) ];
          JDict [ (lit "name", JStr (lit "Five")) ] ].

Definition sample_games : json :=
  JList [ JDict [ (lit "name", JStr (lit "A")); (lit "playtime_2weeks", JInt 125) ];
          JDict [ (lit "name", JStr (lit "B")) ] ].

Definition steam_api : Http :=
  fun url params =>
    if str_eqb url (API_BASE ++ lit "/ISteamUser/ResolveVanityURL/v1/") then
      json_reply (JDict [ (lit "response",
                           JDict [ (lit "success", JInt 1);
                                   (lit "steamid", JStr (lit "76561198000000000")) ]) ])
    else if str_eqb url (API_BASE ++ lit "/ISteamUser/GetPlayerSummaries/v2/") then
      json_reply (JDict [ (lit "response",
                           JDict [ (lit "players", JList [ sample_player ]) ]) ])
    else if str_eqb url (API_BASE ++ lit "/IPlayerService/GetSteamLevel/v1/") then
      json_reply (JDict [ (lit "response", JDict [ (lit "player_level", JInt 12) ]) ])
    else if str_eqb url (API_BASE ++ lit "/IPlayerService/GetBadges/v1/") then
      json_reply (JDict [ (lit "response", JDict [ (lit "badges", sample_badges) ]) ])
    else if str_eqb url (API_BASE ++ lit "/IPlayerService/GetRecentlyPlayedGames/v1/") then
      json_reply (JDict [ (lit "response", JDict [ (lit "games", sample_games) ]) ])
    else if str_eqb url (lit "https://avatars.example/full.jpg") then
      Returns {| http_response := {| status_code := 200; content := [x41; x42; x43];
                                     content_type := Some (lit "image/jpeg") |};
                 http_json := Raises |}
    else Raises.

(** The same API when the download of the avatar fails. *)
Definition steam_api_without_avatar : Http :=
  fun url params =>
    match params with
    | [] => Raises
    | _ => steam_api url params
    end.

(** An API that answers no request. *)
Definition unreachable_api : Http := fun _ _ => Raises.

(** The profile [fetch_profile] builds from the sample. *)
Definition sample_profile : SteamProfile :=
  {| steamid := lit "76561198000000000"; personaname := lit "gamer";
     profileurl := lit "https://steamcommunity.com/profiles/76561198000000000";
     avatarfull := lit "https://avatars.example/full.jpg";
     avatar_data_uri := Some (lit "data:image/jpeg;base64,QUJD");
     realname := None; loccountrycode := Some (lit "FR");
     timecreated := None; lastlogoff := None; personastate := 1;
     personastateflags := None; level := Some 12;
     badge_highlights :=
       [ BadgeHighlight.mk (lit "One") (Some 1);
         BadgeHighlight.mk (lit "Two") None;
         BadgeHighlight.mk (lit "Badge") (Some 3) ];
     recent_games :=
       [ RecentGame.mk (lit "A") 125; RecentGame.mk (lit "B") 0 ] |}.

(** A profile with another embedded avatar. *)
Definition with_avatar_data_uri (p : SteamProfile) (uri : option str)
    : SteamProfile :=
  {| steamid := steamid p;
     personaname := personaname p;
     profileurl := profileurl p;
     avatarfull := avatarfull p;
     avatar_data_uri := uri;
     realname := realname p;
     loccountrycode := loccountrycode p;
     timecreated := timecreated p;
     lastlogoff := lastlogoff p;
     personastate := personastate p;
     personastateflags := personastateflags p;
     level := level p;
     badge_highlights := badge_highlights p;
     recent_games := recent_games p |}.

(** The four requests of [fetch_profile], in the order it sends them. *)
Definition profile_requests (api_key steamid : str)
    : list (str * list (str * json)) :=
  [ (lit "/ISteamUser/GetPlayerSummaries/v2/",
     [ (lit "key", JStr api_key); (lit "steamids", JStr steamid) ]);
    (lit "/IPlayerService/GetSteamLevel/v1/",
     [ (lit "key", JStr api_key); (lit "steamid", JStr steamid) ]);
    (lit "/IPlayerService/GetBadges/v1/",
     [ (lit "key", JStr api_key); (lit "steamid", JStr steamid) ]);
    (lit "/IPlayerService/GetRecentlyPlayedGames/v1/",
     [ (lit "key", JStr api_key); (lit "steamid", JStr steamid);
       (lit "count", JInt 3) ]) ].

(** The request is answered with a document and a status that
    [raise_for_status] accepts. *)
Definition answered (session : Http) (request : str * list (str * json)) : Prop :=
  exists doc, fetch_json session (fst request) (snd request) = Val doc.

(** Two sessions that answer every request with parameters alike. *)
Definition same_api (s1 s2 : Http) : Prop :=
  forall url params, params <> [] -> s1 url params = s2 url params.

(** Two results of [fetch_profile] that differ at most in the embedded
    avatar. *)
Definition same_but_avatar (r1 r2 : py SteamProfile) : Prop :=
  match r1, r2 with
  | Val p1, Val p2 => p2 = with_avatar_data_uri p1 (avatar_data_uri p2)
  | Exc, Exc => True
  | Untyped, Untyped => True
  | _, _ => False
  end.

(** *** The command *)







Definition offline_args : Args :=
  {| arg_vanity := None; arg_steamid := None;
     arg_api_key := None; arg_output := lit "card.svg";
     arg_cache := Some (lit "cache.json"); arg_write_cache := None |}.


(** A run with neither a key nor a cache. *)
Definition keyless_args : Args :=
  {| arg_vanity := Some (lit "gamer"); arg_steamid := None;
     arg_api_key := None; arg_output := lit "card.svg";
     arg_cache := None; arg_write_cache := None |}.

(** *** The other fields of the card *)

(** The elements that hold the level and the info line, and the two tags
    that hold the avatar and the profile URL. *)
Definition level_open : str :=
  tpl "<text x=`0` y=`18` font-size=`12` fill=`#90ABC4`>".
Definition info_open : str :=
  tpl "<text x=`0` y=`58` font-size=`11` fill=`#4DA6DA`>".
Definition image_open : str := tpl "<image href=`".
Definition image_rest : str :=
  tpl "` x=`24` y=`26` width=`88` height=`88` clip-path=`url(#avatarClip)` preserveAspectRatio=`xMidYMid slice` />".

Definition level_element (text : str) : str := level_open ++ text ++ text_close.
Definition info_element (text : str) : str := info_open ++ text ++ text_close.
Definition image_tag (href : str) : str := image_open ++ href ++ image_rest.
Definition link_tag (href : str) : str := link_open ++ href ++ link_rest.

(** The image of the card: the embedded avatar, else the built-in one. *)
Definition avatar_of (p : SteamProfile) : str :=
  or_str (avatar_data_uri p) DEFAULT_AVATAR_DATA_URI.

(** A profile with another identifier, another address of the avatar and
    other flags. *)
Definition with_identity (p : SteamProfile) (id url : str) (flags : option Z)
    : SteamProfile :=
  {| steamid := id;
     personaname := personaname p;
     profileurl := profileurl p;
     avatarfull := url;
     avatar_data_uri := avatar_data_uri p;
     realname := realname p;
     loccountrycode := loccountrycode p;
     timecreated := timecreated p;
     lastlogoff := lastlogoff p;
     personastate := personastate p;
     personastateflags := flags;
     level := level p;
     badge_highlights := badge_highlights p;
     recent_games := recent_games p |}.

(** *** Checks by computation *)





(** *** Texts of the card *)

(** A text without white space. *)
Definition solid (x : str) : Prop := forallb (fun c => negb (isspace c)) x = true.

(** The card starts with the opening of the [svg] element and ends with
    its closing. *)
Definition svg_open : str := lit "<svg".
Definition svg_close : str := lit "</svg>".

(** [bracketed s]: the text starts with [<] and ends with [>]. *)
Definition bracketed (s : str) : Prop := exists mid, s = 60 :: mid ++ [62].

(** The text of an entry, from the end of its opening tag on. *)
Definition game_entry (game : RecentGame.t) : str :=
  lit ">" ++ escape (RecentGame.name game) ++ lit " — "
    ++ human_minutes (RecentGame.playtime_2weeks game) ++ lit "</tspan>".

Definition badge_entry (badge : BadgeHighlight.t) : str :=
  lit ">" ++ escape (badge_label badge) ++ lit "</tspan>".

(** ** The status label *)

(** C6. [persona_state_label] is defined on every status code: 0 to 6 give
    Offline, Online, Busy, Away, Snooze, Looking to Trade and Looking to
    Play, and every other integer, negative ones included, gives Unknown. *)
Theorem persona_state_label_total :
  forall p : SteamProfile,
    persona_state_label p =
    match personastate p with
    | 0 => lit "Offline"
    | 1 => lit "Online"
    | 2 => lit "Busy"
    | 3 => lit "Away"
    | 4 => lit "Snooze"
    | 5 => lit "Looking to Trade"
    | 6 => lit "Looking to Play"
    | _ => lit "Unknown"
    end.
Proof.
  intros p. unfold persona_state_label.
  destruct (personastate p) as [|q|q]; [reflexivity| |reflexivity].
  do 3 (destruct q as [q|q|]; try reflexivity).
Qed.

Lemma persona_state_label_other :
  forall p, (personastate p < 0 \/ 6 < personastate p) ->
            persona_state_label p = lit "Unknown".
Proof.
  intros p H. unfold persona_state_label.
  destruct (personastate p) as [|q|q]; [lia| |reflexivity].
  do 3 (destruct q as [q|q|]; try reflexivity; try lia).
Qed.

(** ** The country flag *)

Lemma upper_char_letter :
  forall up c, is_letter c -> upper_char up c = [capital c].
Proof.
  intros up c H. unfold upper_char, capital.
  destruct ((97 <=? c) && (c <=? 122)) eqn:E; [reflexivity|].
  destruct (Z.ltb_spec c 128); [reflexivity|].
  unfold is_letter in H. lia.
Qed.

Lemma chr_in_range : forall n, 0 <= n <= 1114111 -> chr n = Some n.
Proof.
  intros n H. unfold chr.
  replace ((0 <=? n) && (n <=? 1114111)) with true; [reflexivity|].
  symmetry. apply andb_true_iff. split; apply Z.leb_le; lia.
Qed.

(** For a code of two letters of either case the flag is made of the two
    regional indicator symbols of the letters. *)
Lemma country_flag_letters :
  forall up p a b,
    loccountrycode p = Some [a; b] -> is_letter a -> is_letter b ->
    country_flag up p =
    Some [regional_indicator (capital a); regional_indicator (capital b)].
Proof.
  intros up p a b E Ha Hb. unfold country_flag, upper. rewrite E.
  cbn [truthy_ostr truthy_str negb flat_map].
  rewrite !upper_char_letter by assumption.
  cbn [app length Nat.eqb negb map join_chr].
  assert (Ca : 65 <= capital a <= 90).
  { unfold capital, is_letter in *.
    destruct ((97 <=? a) && (a <=? 122)) eqn:X; lia. }
  assert (Cb : 65 <= capital b <= 90).
  { unfold capital, is_letter in *.
    destruct ((97 <=? b) && (b <=? 122)) eqn:X; lia. }
  rewrite !chr_in_range by lia.
  unfold regional_indicator.
  replace (127462 + capital a - 65) with (127462 + (capital a - 65)) by lia.
  replace (127462 + capital b - 65) with (127462 + (capital b - 65)) by lia.
  reflexivity.
Qed.

(** No code and the empty code give no flag. *)
Lemma country_flag_absent :
  forall up p, truthy_ostr (loccountrycode p) = false -> country_flag up p = None.
Proof.
  intros up p H. unfold country_flag. rewrite H. reflexivity.
Qed.

(** An ASCII code that does not have two characters gives no flag. *)
Lemma upper_ascii_length :
  forall up s, Forall (fun c => c < 128) s -> length (upper up s) = length s.
Proof.
  intros up s H. induction H as [|c r Hc _ IH]; [reflexivity|].
  unfold upper in *. simpl. rewrite length_app, IH.
  unfold upper_char. destruct ((97 <=? c) && (c <=? 122)); [reflexivity|].
  destruct (Z.ltb_spec c 128); [reflexivity|lia].
Qed.

Lemma country_flag_wrong_length :
  forall up p s,
    loccountrycode p = Some s -> Forall (fun c => c < 128) s ->
    length s <> 2%nat -> country_flag up p = None.
Proof.
  intros up p s E A L. unfold country_flag. rewrite E.
  destruct (truthy_str s) eqn:T; simpl; rewrite T; simpl; [|reflexivity].
  rewrite upper_ascii_length by assumption.
  destruct (Nat.eqb_spec (length s) 2); [contradiction|reflexivity].
Qed.

(** The length is tested after [upper]: where the case table maps the one
    character U+00DF to the two letters SS, as the Unicode database does, a
    code of one character gets a flag. *)
Lemma country_flag_sharp_s :
  forall up, up 223 = [83; 83] ->
             country_flag up (with_country (Some [223])) = Some [127480; 127480].
Proof.
  intros up H. unfold country_flag, upper.
  cbn [with_country loccountrycode truthy_ostr truthy_str negb flat_map].
  unfold upper_char. cbn [Z.leb Z.ltb Z.compare Pos.compare Pos.compare_cont andb].
  rewrite H. reflexivity.
Qed.

(** C2. The code of two digits 12 contains no letter, and [country_flag]
    returns the two code points U+1F1D6 and U+1F1D7 for it. *)
Theorem country_flag_of_digits :
  forall up : Z -> str,
    country_flag up (with_country (Some (lit "12"))) = Some [127446; 127447].
Proof.
  intros up. reflexivity.
Qed.

(** ** Timestamps *)

(** C10. The timestamp 0 counts as a missing one: [member_since] is [None]
    when [timecreated] is 0 and [last_seen] is [None], without reading the
    clock, when [lastlogoff] is 0; the epoch itself is a representable
    instant, whose label would be Jan 1970. *)
Theorem epoch_counts_as_missing :
  forall (p : SteamProfile) (w : world),
    (timecreated p = Some 0 -> member_since p = None) /\
    (lastlogoff p = Some 0 -> last_seen p w = (None, w)) /\
    option_map strftime_b_Y (fromtimestamp 0) = Some (lit "Jan 1970").
Proof.
  intros p w. split; [|split].
  - intros E. unfold member_since. rewrite E. reflexivity.
  - intros E. unfold last_seen. rewrite E. reflexivity.
  - vm_compute. reflexivity.
Qed.

Lemma epoch_counts_as_missing_witness :
  member_since (with_times (Some 0) (Some 0) 0) = None /\
  last_seen (with_times (Some 0) (Some 0) 0) (frozen 1700000000000000) =
    (None, frozen 1700000000000000).
Proof.
  destruct (epoch_counts_as_missing (with_times (Some 0) (Some 0) 0)
              (frozen 1700000000000000)) as [H1 [H2 _]].
  split; [apply H1; reflexivity | apply H2; reflexivity].
Defined.

Lemma last_seen_age :
  forall age : Z,
    0 <= age ->
    (if 1 <=? timedelta_days age then
       str_of_int (timedelta_days age) ++ lit "d ago"
     else if negb (timedelta_seconds age / 3600 =? 0) then
       str_of_int (timedelta_seconds age / 3600) ++ lit "h ago"
     else str_of_int (Z.max 1 (timedelta_seconds age / 60)) ++ lit "m ago")
    = relative_age age.
Proof.
  intros age H.
  unfold relative_age, timedelta_days, timedelta_seconds,
    us_per_hour, us_per_minute, us_per_day, us_per_second.
  change (86400 * 1000000) with 86400000000.
  change (3600 * 1000000) with 3600000000.
  change (60 * 1000000) with 60000000.
  destruct (Z.leb_spec 86400000000 age) as [D|D].
  - replace (1 <=? age / 86400000000) with true; [reflexivity|].
    symmetry. apply Z.leb_le. apply Z.div_le_lower_bound; lia.
  - replace (1 <=? age / 86400000000) with false.
    2:{ symmetry. apply Z.leb_gt. apply Z.div_lt_upper_bound; lia. }
    rewrite (Z.mod_small age 86400000000) by lia.
    rewrite !Z.div_div by lia.
    change (1000000 * 3600) with 3600000000.
    change (1000000 * 60) with 60000000.
    destruct (Z.leb_spec 3600000000 age) as [Hh|Hh].
    + replace (age / 3600000000 =? 0) with false; [reflexivity|].
      symmetry. apply Z.eqb_neq.
      assert (1 <= age / 3600000000) by (apply Z.div_le_lower_bound; lia). lia.
    + rewrite (Z.div_small age 3600000000) by lia. reflexivity.
Qed.

(** A timestamp that is not 0, is in range and is not after the clock
    reading gives the relative age in tiers. *)
Lemma last_seen_valid :
  forall (p : SteamProfile) (w : world) (t : Z),
    lastlogoff p = Some t ->
    t <> 0 -> min_timestamp <= t <= max_timestamp ->
    t * us_per_second <= fst (utcnow w) ->
    last_seen p w =
    (Some (relative_age (fst (utcnow w) - t * us_per_second)), snd (utcnow w)).
Proof.
  intros p w t E NZ R P. unfold last_seen. rewrite E.
  unfold truthy_oint. replace (t =? 0) with false by (symmetry; apply Z.eqb_neq; exact NZ).
  cbn [negb]. unfold utcnow in *. cbn [fst snd] in *. unfold fromtimestamp.
  replace ((min_timestamp <=? t) && (t <=? max_timestamp)) with true.
  2:{ symmetry. apply andb_true_iff. split; apply Z.leb_le; lia. }
  rewrite <- last_seen_age by lia.
  set (age := readings w (reads w) - t * us_per_second).
  destruct (1 <=? timedelta_days age); [reflexivity|].
  destruct (negb (timedelta_seconds age / 3600 =? 0)); reflexivity.
Qed.

(** The claim of C5 fails at the epoch: the timestamp 0 is representable
    and lies 90000 seconds back, where the tiers give "1d ago", and
    [last_seen] returns [None]. *)
Lemma last_seen_epoch_is_none :
  fromtimestamp 0 = Some (0 * us_per_second) /\
  0 * us_per_second <= 90000 * us_per_second /\
  relative_age (90000 * us_per_second - 0 * us_per_second) = lit "1d ago" /\
  fst (last_seen (with_times None (Some 0) 0) (frozen (90000 * us_per_second)))
  = None.
Proof.
  repeat split; vm_compute; try reflexivity. discriminate.
Qed.

(** C5, amended. [last_seen] is [None] when [lastlogoff] is missing, zero
    or outside the range [fromtimestamp] accepts; for every other timestamp
    that is not after the clock reading it is the relative age in tiers:
    days from one day on, else hours from one hour on, else minutes with 1
    as the least count. So 30 seconds give "1m ago", 5000 seconds "1h ago"
    and 90000 seconds "1d ago". *)
Theorem last_seen_tiers :
  forall (p : SteamProfile) (w : world),
    (lastlogoff p = None -> last_seen p w = (None, w)) /\
    (forall t, lastlogoff p = Some t ->
               t = 0 \/ t < min_timestamp \/ max_timestamp < t ->
               fst (last_seen p w) = None) /\
    (forall t, lastlogoff p = Some t ->
               t <> 0 -> min_timestamp <= t <= max_timestamp ->
               t * us_per_second <= fst (utcnow w) ->
               last_seen p w =
               (Some (relative_age (fst (utcnow w) - t * us_per_second)),
                snd (utcnow w))) /\
    relative_age (30 * us_per_second) = lit "1m ago" /\
    relative_age (5000 * us_per_second) = lit "1h ago" /\
    relative_age (90000 * us_per_second) = lit "1d ago".
Proof.
  intros p w. split; [|split; [|split]].
  - intros E. unfold last_seen. rewrite E. reflexivity.
  - intros t E H. unfold last_seen. rewrite E.
    destruct (Z.eqb_spec t 0) as [Z0|NZ].
    + subst t. reflexivity.
    + unfold truthy_oint. replace (t =? 0) with false by (symmetry; apply Z.eqb_neq; exact NZ).
      cbn [negb]. unfold utcnow, fromtimestamp.
      replace ((min_timestamp <=? t) && (t <=? max_timestamp)) with false.
      * reflexivity.
      * symmetry. apply andb_false_iff.
        destruct H as [H|[H|H]]; [contradiction|left|right]; apply Z.leb_gt; lia.
  - intros t E NZ R P. apply last_seen_valid; assumption.
  - repeat split; vm_compute; reflexivity.
Qed.

Lemma last_seen_tiers_witness :
  last_seen (with_times None (Some 1700000000) 0)
            (frozen (1700005000 * us_per_second)) =
  (Some (lit "1h ago"),
   snd (utcnow (frozen (1700005000 * us_per_second)))) /\
  fst (last_seen (with_times None (Some (max_timestamp + 1)) 0)
                 (frozen (1700005000 * us_per_second))) = None /\
  last_seen (with_times None None 0) (frozen 0) = (None, frozen 0).
Proof.
  split; [|split].
  - pose proof (last_seen_tiers (with_times None (Some 1700000000) 0)
                  (frozen (1700005000 * us_per_second))) as [_ [_ [H _]]].
    apply (H 1700000000).
    + reflexivity.
    + discriminate.
    + split; vm_compute; discriminate.
    + vm_compute; discriminate.
  - pose proof (last_seen_tiers (with_times None (Some (max_timestamp + 1)) 0)
                  (frozen (1700005000 * us_per_second))) as [_ [H _]].
    apply (H (max_timestamp + 1)).
    + reflexivity.
    + right; right. vm_compute. reflexivity.
  - pose proof (last_seen_tiers (with_times None None 0) (frozen 0)) as [H _].
    apply H. reflexivity.
Defined.

(** ** The cache codec *)





(** ** The avatar fetcher *)

Lemma normalize_content_type_spec :
  forall guess header url,
    _normalize_content_type guess header url = chosen_type guess header url.
Proof.
  intros guess header url.
  unfold chosen_type, _normalize_content_type, declared_type, or_str.
  destruct header as [h|]; [|reflexivity].
  destruct h as [|c r]; [reflexivity|].
  cbn [truthy_str]. reflexivity.
Qed.

(** The claim of C8 fails on a status that is neither 2xx nor an error
    status: a 300 response with a body is embedded. *)
Lemma fetch_avatar_data_status_300 :
  fetch_avatar_data no_guess
    (Some (always (Returns {| status_code := 300; content := [x41];
                              content_type := None |})))
    None (lit "http://x/a")
  = Returns (Some (lit "data:image/jpeg;base64,QQ==")).
Proof. vm_compute. reflexivity. Qed.

(** C8, amended. [fetch_avatar_data] never raises. It returns [None] for
    the empty URL, when the request raises, when the status is a client or
    server error (400 to 599), and when the body is empty; with neither a
    session nor [urlopen] it returns [None] too. In every other case it
    returns the data URI of the body in base64, whose content type is the
    declared one, else the one guessed from the URL, else [image/jpeg]. *)
Theorem fetch_avatar_data_total :
  forall (guess : str -> option str) (session : option Session)
         (urlopen : option Urlopen) (url : str),
    (exists r, fetch_avatar_data guess session urlopen url = Returns r) /\
    (url = [] -> fetch_avatar_data guess session urlopen url = Returns None) /\
    (forall get, session = Some get -> get url = Raises ->
       fetch_avatar_data guess session urlopen url = Returns None) /\
    (forall get resp, session = Some get -> get url = Returns resp ->
       400 <= status_code resp < 600 ->
       fetch_avatar_data guess session urlopen url = Returns None) /\
    (forall get resp, session = Some get -> get url = Returns resp ->
       content resp = [] ->
       fetch_avatar_data guess session urlopen url = Returns None) /\
    (forall open, session = None -> urlopen = Some open ->
       open url = Raises \/ (exists h, open url = Returns ([], h)) ->
       fetch_avatar_data guess session urlopen url = Returns None) /\
    (session = None -> urlopen = None ->
       fetch_avatar_data guess session urlopen url = Returns None) /\
    (forall get resp, session = Some get -> get url = Returns resp ->
       url <> [] -> content resp <> [] ->
       status_code resp < 400 \/ 600 <= status_code resp ->
       fetch_avatar_data guess session urlopen url =
       Returns (Some (lit "data:"
                        ++ chosen_type guess (content_type resp) url
                        ++ lit ";base64," ++ b64encode (content resp)))) /\
    (forall open data h, session = None -> urlopen = Some open ->
       open url = Returns (data, h) -> url <> [] -> data <> [] ->
       fetch_avatar_data guess session urlopen url =
       Returns (Some (lit "data:" ++ chosen_type guess h url
                        ++ lit ";base64," ++ b64encode data))).
Proof.
  intros guess session urlopen url.
  repeat match goal with |- _ /\ _ => split end.
  - unfold fetch_avatar_data.
    destruct (negb (truthy_str url)); [eexists; reflexivity|].
    destruct (try_except _ None) as [[data ct]|]; [|eexists; reflexivity].
    destruct data; eexists; reflexivity.
  - intros ->. reflexivity.
  - intros get -> E. unfold fetch_avatar_data, fetch_avatar_try.
    rewrite E. cbn [bind try_except].
    destruct (negb (truthy_str url)); reflexivity.
  - intros get resp -> E S. unfold fetch_avatar_data, fetch_avatar_try.
    rewrite E. cbn [bind]. unfold raise_for_status.
    replace ((400 <=? status_code resp) && (status_code resp <? 600)) with true.
    2:{ symmetry. apply andb_true_iff. split; [apply Z.leb_le|apply Z.ltb_lt]; lia. }
    cbn [bind try_except].
    destruct (negb (truthy_str url)); reflexivity.
  - intros get resp -> E C. unfold fetch_avatar_data, fetch_avatar_try.
    rewrite E. cbn [bind]. unfold raise_for_status.
    destruct ((400 <=? status_code resp) && (status_code resp <? 600));
      cbn [bind try_except]; rewrite ?C;
      destruct (negb (truthy_str url)); reflexivity.
  - intros open -> -> [E|[h E]]; unfold fetch_avatar_data, fetch_avatar_try;
      rewrite E; cbn [bind try_except];
      destruct (negb (truthy_str url)); reflexivity.
  - intros -> ->. unfold fetch_avatar_data, fetch_avatar_try.
    cbn [try_except]. destruct (negb (truthy_str url)); reflexivity.
  - intros get resp -> E U C S. unfold fetch_avatar_data, fetch_avatar_try.
    rewrite E. cbn [bind]. unfold raise_for_status.
    replace ((400 <=? status_code resp) && (status_code resp <? 600)) with false.
    2:{ symmetry. apply andb_false_iff.
        destruct S; [left; apply Z.leb_gt|right; apply Z.ltb_ge]; lia. }
    cbn [bind try_except].
    destruct url as [|c r]; [contradiction|]. cbn [truthy_str negb].
    rewrite <- normalize_content_type_spec.
    destruct (content resp) as [|b bs]; [contradiction|]. reflexivity.
  - intros open data h -> -> E U D. unfold fetch_avatar_data, fetch_avatar_try.
    rewrite E. cbn [bind try_except].
    destruct url as [|c r]; [contradiction|]. cbn [truthy_str negb].
    rewrite <- normalize_content_type_spec.
    destruct data as [|b bs]; [contradiction|]. reflexivity.
Qed.

Lemma fetch_avatar_data_total_witness :
  fetch_avatar_data no_guess (Some (always (Returns png_response))) None
    (lit "http://x/a")
  = Returns (Some (lit "data:image/png;base64,QUJD")) /\
  fetch_avatar_data no_guess (Some (always Raises)) None (lit "http://x/a")
  = Returns None /\
  fetch_avatar_data no_guess
    (Some (always (Returns {| status_code := 404; content := [x41];
                              content_type := None |})))
    None (lit "http://x/a")
  = Returns None.
Proof.
  pose proof (fetch_avatar_data_total no_guess
                (Some (always (Returns png_response))) None (lit "http://x/a"))
    as [_ [_ [_ [_ [_ [_ [_ [H _]]]]]]]].
  pose proof (fetch_avatar_data_total no_guess
                (Some (always Raises)) None (lit "http://x/a"))
    as [_ [_ [H1 _]]].
  pose proof (fetch_avatar_data_total no_guess
                (Some (always (Returns {| status_code := 404; content := [x41];
                                          content_type := None |})))
                None (lit "http://x/a"))
    as [_ [_ [_ [H2 _]]]].
  split; [|split].
  - apply (H (always (Returns png_response)) png_response).
    + reflexivity.
    + reflexivity.
    + discriminate.
    + discriminate.
    + left. vm_compute. reflexivity.
  - apply (H1 (always Raises)); reflexivity.
  - eapply H2; [reflexivity|reflexivity|].
    split; vm_compute; [discriminate|reflexivity].
Defined.

(** ** Characters of the generated texts *)



Lemma tame_app : forall a b, Forall tame a -> Forall tame b -> Forall tame (a ++ b).
Proof. intros a b Ha Hb. apply Forall_app. split; assumption. Qed.

Lemma lit_cons :
  forall c s, ascii_code c < 128 -> lit (String c s) = ascii_code c :: lit s.
Proof.
  intros c s H. unfold lit. cbn [list_ascii_of_string map utf8_decode].
  destruct (Z.ltb_spec (ascii_code c) 128); [reflexivity|lia].
Qed.

Lemma uint_chars :
  forall d, Forall (fun c => 48 <= c <= 57) (lit (NilEmpty.string_of_uint d)).
Proof.
  induction d; cbn [NilEmpty.string_of_uint];
    [constructor | rewrite lit_cons by (vm_compute; reflexivity);
                   constructor; [vm_compute; split; discriminate | exact IHd] ..].
Qed.

Lemma str_of_int_chars :
  forall n, Forall (fun c => 45 <= c <= 57) (str_of_int n).
Proof.
  intros n. unfold str_of_int.
  destruct (Z.to_int n) as [d|d]; cbn [NilEmpty.string_of_int].
  - eapply Forall_impl; [|apply uint_chars]. cbn. intros; lia.
  - rewrite lit_cons by (vm_compute; reflexivity). constructor.
    + vm_compute. split; discriminate.
    + eapply Forall_impl; [|apply uint_chars]. cbn. intros; lia.
Qed.

Lemma str_of_int_tame : forall n, Forall tame (str_of_int n).
Proof.
  intros n. eapply Forall_impl; [|apply str_of_int_chars].
  cbn. unfold tame. intros; lia.
Qed.

Lemma tameb_tame : forall s, forallb tameb s = true -> Forall tame s.
Proof.
  intros s H. rewrite forallb_forall in H. apply Forall_forall.
  intros c I. specialize (H c I). unfold tameb in H. unfold tame.
  rewrite negb_true_iff, !orb_false_iff, !Z.eqb_neq in H. tauto.
Qed.

Ltac tame_closed := apply tameb_tame; vm_compute; reflexivity.

Lemma human_minutes_tame : forall n, Forall tame (human_minutes n).
Proof.
  intros n. unfold human_minutes.
  destruct (negb (n / 60 =? 0) && negb (n mod 60 =? 0));
    [|destruct (negb (n / 60 =? 0))];
    repeat apply tame_app; try apply str_of_int_tame; tame_closed.
Qed.



Lemma truthy_app_r :
  forall a b, truthy_str b = true -> truthy_str (a ++ b) = true.
Proof.
  intros a b H. destruct a; [exact H|reflexivity].
Qed.

(** Whether [last_seen] has a result does not depend on the clock. *)
Lemma last_seen_available :
  forall p w w',
    truthy_ostr (fst (last_seen p w)) = truthy_ostr (fst (last_seen p w')).
Proof.
  intros p w w'. unfold last_seen.
  destruct (negb (truthy_oint (lastlogoff p))); [reflexivity|].
  destruct (lastlogoff p) as [t|]; [|reflexivity].
  destruct (utcnow w) as [now w1], (utcnow w') as [now' w1'].
  destruct (fromtimestamp t) as [logoff|]; [|reflexivity].
  destruct (1 <=? timedelta_days (now - logoff)),
           (1 <=? timedelta_days (now' - logoff)),
           (negb (timedelta_seconds (now - logoff) / 3600 =? 0)),
           (negb (timedelta_seconds (now' - logoff) / 3600 =? 0));
    cbn [fst truthy_ostr]; rewrite !truthy_app_r by reflexivity; reflexivity.
Qed.

(** ** Escaping *)

Lemma flat_map_twice :
  forall (f g : Z -> str) s,
    flat_map f (flat_map g s) = flat_map (fun c => flat_map f (g c)) s.
Proof.
  intros f g s. induction s as [|c r IH]; [reflexivity|].
  cbn [flat_map]. rewrite flat_map_app, IH. reflexivity.
Qed.

(** The three passes of [escape] amount to one pass that replaces each
    character on its own. *)
Lemma escape_by_char : forall s, escape s = flat_map escape_char s.
Proof.
  intros s. unfold escape, replace1. rewrite !flat_map_twice.
  apply flat_map_ext. intros c. unfold escape_char.
  destruct (Z.eqb_spec c 38) as [->|N1]; [reflexivity|].
  cbn [flat_map app].
  destruct (Z.eqb_spec c 62) as [->|N2]; [reflexivity|].
  cbn [flat_map app].
  destruct (Z.eqb_spec c 60) as [->|N3]; reflexivity.
Qed.

Lemma escape_cons : forall c s, escape (c :: s) = escape_char c ++ escape s.
Proof. intros c s. rewrite !escape_by_char. reflexivity. Qed.

Lemma escape_app : forall a b, escape (a ++ b) = escape a ++ escape b.
Proof. intros a b. rewrite !escape_by_char. apply flat_map_app. Qed.

Lemma escape_tame : forall s, Forall tame s -> escape s = s.
Proof.
  intros s H. induction H as [|c r [_ [H1 [H2 H3]]] _ IH]; [reflexivity|].
  rewrite escape_cons, IH. unfold escape_char.
  destruct (Z.eqb_spec c 38); [contradiction|].
  destruct (Z.eqb_spec c 62); [contradiction|].
  destruct (Z.eqb_spec c 60); [contradiction|]. reflexivity.
Qed.

Lemma escape_char_cases :
  forall c, (c = 38 /\ escape_char c = lit "&amp;")
            \/ (c = 62 /\ escape_char c = lit "&gt;")
            \/ (c = 60 /\ escape_char c = lit "&lt;")
            \/ (c <> 38 /\ c <> 62 /\ c <> 60 /\ escape_char c = [c]).
Proof.
  intros c. unfold escape_char.
  destruct (Z.eqb_spec c 38); [left; split; [assumption|reflexivity]|].
  destruct (Z.eqb_spec c 62); [right; left; split; [assumption|reflexivity]|].
  destruct (Z.eqb_spec c 60); [right; right; left; split; [assumption|reflexivity]|].
  right; right; right. repeat split; assumption.
Qed.




(** [escape] adds no line feed. *)
Lemma escape_no_newline :
  forall s, Forall (fun c => c <> 10) s -> Forall (fun c => c <> 10) (escape s).
Proof.
  intros s H. induction H as [|x r N _ IH]; [constructor|].
  rewrite escape_cons. apply Forall_app. split; [|exact IH].
  destruct (escape_char_cases x) as [[_ ->]|[[_ ->]|[[_ ->]|[_ [_ [_ ->]]]]]];
    try (apply Forall_forall; intros c I; vm_compute in I;
         intuition (subst; discriminate)).
  constructor; [exact N|constructor].
Qed.

(** ** Ampersands *)


Lemma startswith_split :
  forall m l, startswith l m = true -> l = m ++ skipn (length m) l.
Proof.
  induction m as [|x m IH]; intros l H; [reflexivity|].
  destruct l as [|y l]; [discriminate|].
  cbn [startswith] in H. apply andb_true_iff in H as [H1 H2].
  apply Z.eqb_eq in H1. subst y. cbn [length skipn app]. f_equal.
  apply IH. exact H2.
Qed.





(** ** What [dedent] and [strip] remove *)

Lemma rs_refl : forall s, removes_space s s.
Proof. induction s; constructor; assumption. Qed.

Lemma rs_app :
  forall s t s' t', removes_space s t -> removes_space s' t' ->
                    removes_space (s ++ s') (t ++ t').
Proof.
  intros s t s' t' H H'. induction H; cbn [app];
    [assumption | apply rs_keep; assumption | apply rs_drop; assumption].
Qed.

Lemma rs_trans :
  forall s t u, removes_space s t -> removes_space t u -> removes_space s u.
Proof.
  intros s t u H. revert u. induction H; intros u Hu.
  - exact Hu.
  - inversion Hu; subst.
    + apply rs_keep. apply IHremoves_space. assumption.
    + apply rs_drop; [assumption|]. apply IHremoves_space. assumption.
  - apply rs_drop; [assumption|]. apply IHremoves_space. assumption.
Qed.

Lemma rs_all_space :
  forall s, forallb isspace s = true -> removes_space s [].
Proof.
  induction s as [|c r IH]; intros H; [constructor|].
  cbn [forallb] in H. apply andb_true_iff in H as [H1 H2].
  apply rs_drop; [exact H1|apply IH; exact H2].
Qed.

Lemma rs_rev :
  forall s t, removes_space s t -> removes_space (rev s) (rev t).
Proof.
  intros s t H. induction H; cbn [rev].
  - constructor.
  - apply rs_app; [assumption|apply rs_refl].
  - rewrite <- (app_nil_r (rev t)). apply rs_app; [assumption|].
    apply rs_drop; [assumption|constructor].
Qed.

Lemma is_blank_isspace : forall c, is_blank c = true -> isspace c = true.
Proof.
  intros c H. unfold is_blank in H.
  apply orb_true_iff in H as [H|H]; apply Z.eqb_eq in H; subst c; reflexivity.
Qed.

Lemma blanks_are_space :
  forall s, forallb is_blank s = true -> forallb isspace s = true.
Proof.
  intros s H. rewrite forallb_forall in *. intros c I.
  apply is_blank_isspace. apply H. exact I.
Qed.

Lemma rs_lstrip : forall s, removes_space s (lstrip s).
Proof.
  induction s as [|c r IH]; [constructor|].
  cbn [lstrip]. destruct (isspace c) eqn:E.
  - apply rs_drop; assumption.
  - apply rs_refl.
Qed.

Lemma rs_strip : forall s, removes_space s (strip s).
Proof.
  intros s. unfold strip, rstrip.
  apply rs_trans with (lstrip s); [apply rs_lstrip|].
  rewrite <- (rev_involutive (lstrip s)) at 1.
  apply rs_rev. apply rs_lstrip.
Qed.

(** Lines. *)
Lemma split_on_nonempty : forall sep s, split_on sep s <> [].
Proof.
  intros sep s. destruct s as [|c r]; cbn [split_on]; [discriminate|].
  destruct (c =? sep); [discriminate|].
  destruct (split_on sep r); discriminate.
Qed.

Lemma join_cons :
  forall sep x r, r <> [] -> join sep (x :: r) = x ++ sep ++ join sep r.
Proof.
  intros sep x r H. destruct r; [contradiction|reflexivity].
Qed.

Lemma join_split : forall sep s, join [sep] (split_on sep s) = s.
Proof.
  intros sep s. induction s as [|c r IH]; [reflexivity|].
  cbn [split_on]. destruct (Z.eqb_spec c sep) as [->|N].
  - rewrite join_cons by apply split_on_nonempty. rewrite IH. reflexivity.
  - pose proof (split_on_nonempty sep r) as NE.
    destruct (split_on sep r) as [|l ls]; [contradiction|].
    destruct ls as [|l' ls'].
    + cbn [join] in *. rewrite IH. reflexivity.
    + rewrite join_cons in * by discriminate.
      rewrite <- app_comm_cons. rewrite IH. reflexivity.
Qed.

Lemma rs_join :
  forall (g : str -> str) sep ls,
    (forall l, removes_space l (g l)) ->
    removes_space (join sep ls) (join sep (map g ls)).
Proof.
  intros g sep ls H. induction ls as [|x r IH]; [constructor|].
  destruct r as [|y r].
  - cbn [map join]. apply H.
  - change (map g (x :: y :: r)) with (g x :: map g (y :: r)).
    rewrite !join_cons by discriminate.
    apply rs_app; [apply H|]. apply rs_app; [apply rs_refl|exact IH].
Qed.

(** The margin is made of blanks. *)
Lemma leading_blanks_blank : forall l, forallb is_blank (leading_blanks l) = true.
Proof.
  induction l as [|c r IH]; [reflexivity|].
  cbn [leading_blanks]. destruct (is_blank c) eqn:E; [|reflexivity].
  cbn [forallb]. rewrite E, IH. reflexivity.
Qed.

Lemma common_prefix_blank :
  forall a b, forallb is_blank a = true -> forallb is_blank (common_prefix a b) = true.
Proof.
  induction a as [|x a IH]; intros b H; [reflexivity|].
  destruct b as [|y b]; [reflexivity|].
  cbn [common_prefix]. cbn [forallb] in H. apply andb_true_iff in H as [H1 H2].
  destruct (x =? y); [|reflexivity].
  cbn [forallb]. rewrite H1. apply IH. exact H2.
Qed.

Lemma margin_step_blank :
  forall m indent, blank_margin m -> forallb is_blank indent = true ->
                   blank_margin (margin_step m indent).
Proof.
  intros [m|] indent Hm Hi; cbn [margin_step blank_margin] in *; [|exact Hi].
  destruct (startswith indent m); [exact Hm|].
  destruct (startswith m indent); [exact Hi|].
  apply common_prefix_blank. exact Hm.
Qed.

Lemma margin_blank :
  forall indents m,
    Forall (fun i => forallb is_blank i = true) indents ->
    blank_margin m -> blank_margin (fold_left margin_step indents m).
Proof.
  induction indents as [|i r IH]; intros m H Hm; [exact Hm|].
  inversion H; subst. cbn [fold_left]. apply IH; [assumption|].
  apply margin_step_blank; assumption.
Qed.

Lemma dedent_margin_blank :
  forall lines,
    blank_margin (fold_left margin_step
                    (map leading_blanks (filter truthy_str lines)) None).
Proof.
  intros lines. apply margin_blank; [|exact I].
  apply Forall_forall. intros i Hi. apply in_map_iff in Hi as [l [<- _]].
  apply leading_blanks_blank.
Qed.

Lemma rs_remove_margin :
  forall m l, forallb is_blank m = true -> removes_space l (remove_margin m l).
Proof.
  intros m l H. unfold remove_margin.
  destruct (startswith l m) eqn:E; [|apply rs_refl].
  rewrite (startswith_split _ _ E) at 1.
  rewrite <- (app_nil_l (skipn (length m) l)) at 2.
  apply rs_app; [|apply rs_refl].
  apply rs_all_space. apply blanks_are_space. exact H.
Qed.

Lemma rs_blank_line :
  forall l, removes_space l (if forallb is_blank l then [] else l).
Proof.
  intros l. destruct (forallb is_blank l) eqn:E; [|apply rs_refl].
  apply rs_all_space. apply blanks_are_space. exact E.
Qed.

(** [dedent] removes white space only. *)
Lemma rs_dedent : forall text, removes_space text (dedent text).
Proof.
  intros text. unfold dedent.
  set (blank := fun l : str => if forallb is_blank l then [] else l).
  pose proof (dedent_margin_blank (map blank (split_on 10 text))) as B.
  assert (J : removes_space text (join [10] (map blank (split_on 10 text)))).
  { rewrite <- (join_split 10 text) at 1. apply rs_join. apply rs_blank_line. }
  destruct (fold_left margin_step _ None) as [m|]; [|exact J].
  destruct (truthy_str m); [|exact J].
  cbn [blank_margin] in B. rewrite map_map.
  rewrite <- (join_split 10 text) at 1. apply rs_join.
  intros l. apply rs_trans with (blank l);
    [apply rs_blank_line|apply rs_remove_margin; exact B].
Qed.




(** ** Lines that survive [dedent] and [strip] *)

Lemma infix_drop_prefix : forall p x s, infix (p ++ x) s -> infix x s.
Proof.
  intros p x s [pre [post E]]. exists (pre ++ p), post.
  rewrite E, <- !app_assoc. reflexivity.
Qed.

Lemma split_on_app :
  forall sep a b,
    split_on sep (a ++ sep :: b) = split_on sep a ++ split_on sep b.
Proof.
  intros sep a b. induction a as [|c r IH].
  - cbn [app split_on]. rewrite Z.eqb_refl. reflexivity.
  - cbn [app split_on]. destruct (c =? sep).
    + rewrite IH. reflexivity.
    + rewrite IH. pose proof (split_on_nonempty sep r) as NE.
      destruct (split_on sep r) as [|l ls]; [contradiction|reflexivity].
Qed.

Lemma split_on_line :
  forall sep l, Forall (fun c => c <> sep) l -> split_on sep l = [l].
Proof.
  intros sep l H. induction H as [|c r N _ IH]; [reflexivity|].
  cbn [split_on]. destruct (Z.eqb_spec c sep); [contradiction|].
  rewrite IH. reflexivity.
Qed.

Lemma line_in_text :
  forall a l b, Forall (fun c => c <> 10) l ->
                In l (split_on 10 (a ++ 10 :: l ++ 10 :: b)).
Proof.
  intros a l b H. rewrite !split_on_app, (split_on_line 10 l H).
  apply in_or_app. right. left. reflexivity.
Qed.

Lemma in_join_infix : forall sep x ls, In x ls -> infix x (join sep ls).
Proof.
  intros sep x ls. induction ls as [|y r IH]; intros I; [contradiction|].
  destruct r as [|z r].
  - destruct I as [->|[]]. exists [], []. cbn [join app]. rewrite app_nil_r. reflexivity.
  - rewrite join_cons by discriminate. destruct I as [->|I].
    + exists [], (sep ++ join sep (z :: r)). reflexivity.
    + destruct (IH I) as [pre [post E]]. exists (y ++ sep ++ pre), post.
      rewrite E, <- !app_assoc. reflexivity.
Qed.

Lemma not_blank_line :
  forall ind c r, is_blank c = false -> forallb is_blank (ind ++ c :: r) = false.
Proof.
  intros ind c r H. rewrite forallb_app. cbn [forallb]. rewrite H.
  rewrite andb_false_r. reflexivity.
Qed.

Lemma remove_margin_keeps :
  forall m ind c r,
    forallb is_blank m = true -> is_blank c = false ->
    exists pre, remove_margin m (ind ++ c :: r) = pre ++ c :: r.
Proof.
  intros m ind c r Hm Hc. unfold remove_margin.
  destruct (startswith (ind ++ c :: r) m) eqn:E; [|exists ind; reflexivity].
  revert m Hm E. induction ind as [|i ind IH]; intros m Hm E.
  - destruct m as [|x m]; [exists []; reflexivity|].
    cbn [app startswith forallb] in *.
    apply andb_true_iff in E as [E _]. apply andb_true_iff in Hm as [Hm _].
    apply Z.eqb_eq in E. subst x. congruence.
  - destruct m as [|x m]; [exists (i :: ind); reflexivity|].
    cbn [app startswith forallb length skipn] in *.
    apply andb_true_iff in E as [_ E]. apply andb_true_iff in Hm as [_ Hm].
    exact (IH m Hm E).
Qed.

Lemma dedent_keeps_line :
  forall a ind c r b,
    is_blank c = false -> Forall (fun x => x <> 10) (ind ++ c :: r) ->
    infix (c :: r) (dedent (a ++ 10 :: (ind ++ c :: r) ++ 10 :: b)).
Proof.
  intros a ind c r b Hc Hl. unfold dedent.
  set (blank := fun l : str => if forallb is_blank l then [] else l).
  set (text := a ++ 10 :: (ind ++ c :: r) ++ 10 :: b).
  pose proof (dedent_margin_blank (map blank (split_on 10 text))) as B.
  pose proof (line_in_text a _ b Hl) as I. fold text in I.
  assert (K : blank (ind ++ c :: r) = ind ++ c :: r).
  { unfold blank. rewrite not_blank_line by exact Hc. reflexivity. }
  assert (J : infix (c :: r) (join [10] (map blank (split_on 10 text)))).
  { apply (infix_drop_prefix ind). rewrite <- K.
    apply in_join_infix. apply in_map. exact I. }
  destruct (fold_left margin_step _ None) as [m|]; [|exact J].
  destruct (truthy_str m); [|exact J].
  cbn [blank_margin] in B.
  destruct (remove_margin_keeps m ind c r B Hc) as [pre E].
  apply (infix_drop_prefix pre). rewrite <- E, <- K.
  apply in_join_infix. apply in_map. apply in_map. exact I.
Qed.

Lemma lstrip_keeps :
  forall pre c r, isspace c = false ->
                  exists pre', lstrip (pre ++ c :: r) = pre' ++ c :: r.
Proof.
  intros pre c r H. induction pre as [|x pre IH].
  - exists []. cbn [app lstrip]. rewrite H. reflexivity.
  - cbn [app lstrip]. destruct (isspace x); [exact IH|].
    exists (x :: pre). reflexivity.
Qed.

Lemma strip_keeps :
  forall x c1 mid c2,
    isspace c1 = false -> isspace c2 = false ->
    infix (c1 :: mid ++ [c2]) x -> infix (c1 :: mid ++ [c2]) (strip x).
Proof.
  intros x c1 mid c2 H1 H2 [pre [post E]]. subst x. unfold strip, rstrip.
  destruct (lstrip_keeps pre c1 ((mid ++ [c2]) ++ post) H1) as [pre' E1].
  cbn [app] in *. rewrite E1.
  replace (rev (pre' ++ c1 :: (mid ++ [c2]) ++ post))
    with (rev post ++ c2 :: rev (pre' ++ c1 :: mid)).
  2:{ rewrite !rev_app_distr. cbn [rev app]. rewrite !rev_app_distr.
      cbn [rev app]. rewrite <- !app_assoc. reflexivity. }
  destruct (lstrip_keeps (rev post) c2 (rev (pre' ++ c1 :: mid)) H2) as [post' E2].
  rewrite E2. exists pre', (rev post').
  rewrite rev_app_distr. cbn [rev]. rewrite rev_involutive.
  cbn [app]. rewrite <- !app_assoc. reflexivity.
Qed.

(** A line of the text that starts and ends with a character that is not
    white space is found in the dedented and stripped text. *)
Lemma stripped_dedent_keeps_line :
  forall a ind c1 mid c2 b,
    isspace c1 = false -> isspace c2 = false ->
    Forall (fun x => x <> 10) (ind ++ c1 :: mid ++ [c2]) ->
    infix (c1 :: mid ++ [c2])
          (strip (dedent (a ++ 10 :: (ind ++ c1 :: mid ++ [c2]) ++ 10 :: b))).
Proof.
  intros a ind c1 mid c2 b H1 H2 Hl.
  apply strip_keeps; [exact H1|exact H2|].
  apply dedent_keeps_line; [|exact Hl].
  destruct (is_blank c1) eqn:E; [|reflexivity].
  apply is_blank_isspace in E. congruence.
Qed.

Lemma one_line_check :
  forall s, forallb (fun c => negb (c =? 10)) s = true -> one_line s.
Proof.
  intros s H. rewrite forallb_forall in H. apply Forall_forall.
  intros c I E. specialize (H c I). subst c. discriminate.
Qed.

Lemma tame_one_line : forall s, Forall tame s -> one_line s.
Proof.
  intros s H. eapply Forall_impl; [|exact H]. cbn. unfold tame. tauto.
Qed.

(** An element [o ++ x ++ c] that fills a line of the text, where [o]
    starts with [<] and [c] ends with [>], is found in the output. *)
Lemma keeps_element :
  forall text a ind o x c b,
    text = a ++ 10 :: (ind ++ o ++ x ++ c) ++ 10 :: b ->
    (exists o', o = 60 :: o') -> (exists c', c = c' ++ [62]) ->
    one_line ind -> one_line o -> one_line x -> one_line c ->
    infix (o ++ x ++ c) (strip (dedent text)).
Proof.
  intros text a ind o x c b E [o' Eo] [c' Ec] Li Lo Lx Lc. subst text o c.
  replace ((60 :: o') ++ x ++ c' ++ [62]) with (60 :: (o' ++ x ++ c') ++ [62])
    by (cbn [app]; rewrite <- !app_assoc; reflexivity).
  apply stripped_dedent_keeps_line; try reflexivity.
  replace (60 :: (o' ++ x ++ c') ++ [62]) with ((60 :: o') ++ x ++ (c' ++ [62]))
    by (cbn [app]; rewrite <- !app_assoc; reflexivity).
  unfold one_line in *.
  apply Forall_app; split; [assumption|].
  apply Forall_app; split; [assumption|].
  apply Forall_app; split; assumption.
Qed.

(** ** The card *)

Section Card.

Variables av nm lt st il g0 t0 rl b0 bl url : str.



End Card.

Ltac flatten_app :=
  repeat (rewrite <- app_assoc || rewrite <- app_comm_cons).

Section CardLines.

Variables av nm lt st il g0 t0 rl b0 bl url : str.



Lemma card_first_game_line :
  exists a b,
    card av nm lt st il g0 t0 rl b0 bl url =
    a ++ 10 :: (repeat 32 14 ++ tspan_open ++ (g0 ++ lit " — " ++ t0) ++ tspan_close)
      ++ 10 :: b.
Proof.
  unfold card.
  match goal with
  | |- exists a b, ?S0 ++ av ++ ?S1 ++ nm ++ ?S2 ++ lt ++ ?S3 ++ st ++ ?S4 ++ il
                     ++ ?S5 ++ g0 ++ ?S6 ++ t0 ++ ?S7 ++ ?R = _ =>
    exists (S0 ++ av ++ S1 ++ nm ++ S2 ++ lt ++ S3 ++ st ++ S4 ++ il
               ++ before_last 10 S5),
           (after_first 10 S7 ++ R);
    assert (E5 : S5 = before_last 10 S5 ++ 10 :: repeat 32 14 ++ tspan_open)
      by (vm_compute; reflexivity);
    assert (E7 : S7 = tspan_close ++ 10 :: after_first 10 S7)
      by (vm_compute; reflexivity);
    generalize dependent (before_last 10 S5);
    generalize dependent (after_first 10 S7);
    generalize dependent R;
    generalize dependent S0;
    generalize dependent S1;
    generalize dependent S2;
    generalize dependent S3;
    generalize dependent S4;
    generalize dependent S5;
    generalize dependent S7
  end.
  intros. subst. flatten_app. reflexivity.
Qed.

Lemma card_first_badge_line :
  exists a b,
    card av nm lt st il g0 t0 rl b0 bl url =
    a ++ 10 :: (repeat 32 14 ++ tspan_open ++ b0 ++ tspan_close) ++ 10 :: b.
Proof.
  unfold card.
  match goal with
  | |- exists a b, ?S0 ++ av ++ ?S1 ++ nm ++ ?S2 ++ lt ++ ?S3 ++ st ++ ?S4 ++ il
                     ++ ?S5 ++ g0 ++ ?S6 ++ t0 ++ ?S7 ++ rl ++ ?S8 ++ b0
                     ++ ?S9 ++ ?R = _ =>
    exists (S0 ++ av ++ S1 ++ nm ++ S2 ++ lt ++ S3 ++ st ++ S4 ++ il
               ++ S5 ++ g0 ++ S6 ++ t0 ++ S7 ++ rl ++ before_last 10 S8),
           (after_first 10 S9 ++ R);
    assert (E8 : S8 = before_last 10 S8 ++ 10 :: repeat 32 14 ++ tspan_open)
      by (vm_compute; reflexivity);
    assert (E9 : S9 = tspan_close ++ 10 :: after_first 10 S9)
      by (vm_compute; reflexivity);
    generalize dependent (before_last 10 S8);
    generalize dependent (after_first 10 S9);
    generalize dependent R;
    generalize dependent S0;
    generalize dependent S1;
    generalize dependent S2;
    generalize dependent S3;
    generalize dependent S4;
    generalize dependent S5;
    generalize dependent S6;
    generalize dependent S7;
    generalize dependent S8;
    generalize dependent S9
  end.
  intros. subst. flatten_app. reflexivity.
Qed.

End CardLines.

(** ** The renderer *)

Lemma render_svg_card :
  forall up p w, fst (render_svg up p w) = strip (dedent (card_of up p w)).
Proof.
  intros up p w. unfold render_svg, card_of, level_text_of.
  destruct (status_text p w) as [status w']. reflexivity.
Qed.

Lemma rs_render :
  forall up p w, removes_space (card_of up p w) (fst (render_svg up p w)).
Proof.
  intros up p w. rewrite render_svg_card.
  apply rs_trans with (dedent (card_of up p w)); [apply rs_dedent|apply rs_strip].
Qed.

















(** ** The status line *)

Lemma last_seen_fst :
  forall p w, fst (last_seen p w) = last_seen_at p (fst (utcnow w)).
Proof.
  intros p w. unfold last_seen_at, last_seen.
  destruct (negb (truthy_oint (lastlogoff p))); [reflexivity|].
  destruct (lastlogoff p) as [t|]; [|reflexivity].
  cbn [utcnow frozen readings reads fst].
  destruct (fromtimestamp t) as [logoff|]; [|reflexivity].
  set (age := readings w (reads w) - logoff).
  destruct (1 <=? timedelta_days age); [reflexivity|].
  destruct (negb (timedelta_seconds age / 3600 =? 0)); reflexivity.
Qed.

Lemma last_seen_snd :
  forall p w,
    snd (last_seen p w) =
    if truthy_oint (lastlogoff p) then snd (utcnow w) else w.
Proof.
  intros p w. unfold last_seen.
  destruct (lastlogoff p) as [t|]; [|reflexivity].
  cbn [truthy_oint]. destruct (negb (t =? 0)); [|reflexivity].
  cbn [negb utcnow snd].
  destruct (fromtimestamp t) as [logoff|]; [|reflexivity].
  set (age := readings w (reads w) - logoff).
  destruct (1 <=? timedelta_days age); [reflexivity|].
  destruct (negb (timedelta_seconds age / 3600 =? 0)); reflexivity.
Qed.

Lemma last_seen_at_available :
  forall p now now',
    truthy_ostr (last_seen_at p now) = truthy_ostr (last_seen_at p now').
Proof.
  intros p now now'. unfold last_seen_at. apply last_seen_available.
Qed.

Lemma last_seen_at_truthy :
  forall p now, last_seen_at p now <> None ->
                truthy_ostr (last_seen_at p now) = true.
Proof.
  intros p now. unfold last_seen_at, last_seen.
  destruct (negb (truthy_oint (lastlogoff p))); [intros H; contradiction H; reflexivity|].
  destruct (lastlogoff p) as [t|]; [|intros H; contradiction H; reflexivity].
  cbn [utcnow frozen readings reads fst].
  destruct (fromtimestamp t) as [logoff|]; [|intros H; contradiction H; reflexivity].
  intros _.
  destruct (1 <=? timedelta_days (now - logoff)); cbn [fst truthy_ostr];
    [apply truthy_app_r; reflexivity|].
  destruct (negb (timedelta_seconds (now - logoff) / 3600 =? 0));
    cbn [fst truthy_ostr]; apply truthy_app_r; reflexivity.
Qed.

Lemma last_seen_at_none :
  forall p now, truthy_ostr (last_seen_at p now) = false -> last_seen_at p now = None.
Proof.
  intros p now H. destruct (last_seen_at p now) as [s|] eqn:E; [|reflexivity].
  assert (T : truthy_ostr (last_seen_at p now) = true)
    by (apply last_seen_at_truthy; rewrite E; discriminate).
  rewrite E in T. congruence.
Qed.


(** The status: the suffix is there when the first reading of [last_seen]
    has a result and the state is 0; its text comes from the second
    reading of the clock. *)
Lemma status_text_eq :
  forall p w,
    fst (status_text p w) =
    if truthy_ostr (last_seen_at p (readings w (reads w))) && (personastate p =? 0)
    then persona_state_label p ++ lit " ("
           ++ format_ostr (last_seen_at p (readings w (S (reads w)))) ++ lit ")"
    else persona_state_label p.
Proof.
  intros p w. unfold status_text.
  pose proof (last_seen_fst p w) as F. pose proof (last_seen_snd p w) as S.
  destruct (last_seen p w) as [seen w1]. cbn [fst snd] in F, S.
  cbn [utcnow fst] in F. subst seen.
  destruct (truthy_ostr (last_seen_at p (readings w (reads w)))) eqn:T;
    [|reflexivity].
  destruct (personastate p =? 0); [|reflexivity]. cbn [andb].
  assert (L : truthy_oint (lastlogoff p) = true).
  { destruct (truthy_oint (lastlogoff p)) eqn:L; [reflexivity|].
    unfold last_seen_at, last_seen in T. rewrite L in T. discriminate. }
  rewrite L in S. subst w1.
  pose proof (last_seen_fst p (snd (utcnow w))) as F'.
  destruct (last_seen p (snd (utcnow w))) as [seen' w2]. cbn [fst] in *.
  subst seen'. reflexivity.
Qed.







(** ** The clock *)

(** The claim of C3 fails: one profile, rendered when the clock shows one
    hour and when it shows two hours after the last logoff, gives two
    different cards. *)
Lemma render_svg_reads_clock :
  fst (render_svg caseless (with_times None (Some 1700000000) 0)
         (frozen (1700003600 * us_per_second)))
  <> fst (render_svg caseless (with_times None (Some 1700000000) 0)
            (frozen (1700007200 * us_per_second))).
Proof.
  assert (A : occurs (lit "(1h ago)")
                (fst (render_svg caseless (with_times None (Some 1700000000) 0)
                        (frozen (1700003600 * us_per_second)))) = true)
    by (vm_compute; reflexivity).
  assert (B : occurs (lit "(1h ago)")
                (fst (render_svg caseless (with_times None (Some 1700000000) 0)
                        (frozen (1700007200 * us_per_second)))) = false)
    by (vm_compute; reflexivity).
  intros H. rewrite H in A. rewrite A in B. discriminate B.
Qed.

Lemma card_of_status :
  forall up p w w',
    fst (status_text p w) = fst (status_text p w') ->
    card_of up p w = card_of up p w'.
Proof.
  intros up p w w' H. unfold card_of. rewrite H. reflexivity.
Qed.

(** C3, amended. [render_svg] is a function of the profile and of the
    clock: the card depends on the clock through the reading that gives the
    last-seen text only, so two evaluations that get the same reading give
    the same card; and it does not depend on the clock at all when the
    state is not 0 or [last_seen] has no result. *)
Theorem render_svg_clock :
  forall (up : Z -> str) (p : SteamProfile) (w1 w2 : world),
    (readings w1 (S (reads w1)) = readings w2 (S (reads w2)) ->
     fst (render_svg up p w1) = fst (render_svg up p w2)) /\
    (personastate p <> 0 \/ fst (last_seen p w1) = None ->
     fst (render_svg up p w1) = fst (render_svg up p w2)).
Proof.
  intros up p w1 w2. split.
  - intros E. rewrite !render_svg_card. f_equal. f_equal.
    apply card_of_status. rewrite !status_text_eq, E.
    rewrite (last_seen_at_available p (readings w1 (reads w1))
               (readings w2 (reads w2))).
    reflexivity.
  - intros H. rewrite !render_svg_card. f_equal. f_equal.
    apply card_of_status. rewrite !status_text_eq.
    destruct H as [N|N].
    + replace (personastate p =? 0) with false
        by (symmetry; apply Z.eqb_neq; exact N).
      rewrite !andb_false_r. reflexivity.
    + rewrite last_seen_fst in N. cbn [utcnow fst] in N.
      rewrite <- (last_seen_at_available p (readings w1 (reads w1))
                    (readings w2 (reads w2))).
      rewrite N. reflexivity.
Qed.

Lemma render_svg_clock_witness :
  fst (render_svg caseless (with_times None (Some 1700000000) 1)
         (frozen (1700003600 * us_per_second)))
  = fst (render_svg caseless (with_times None (Some 1700000000) 1)
           (frozen (1700007200 * us_per_second))) /\
  fst (render_svg caseless (with_times None (Some 1700000000) 0)
         (frozen (1700003600 * us_per_second)))
  = fst (render_svg caseless (with_times None (Some 1700000000) 0)
           {| readings := fun n => 1700003600 * us_per_second + Z.of_nat n - 1;
              reads := 0 |}).
Proof.
  split.
  - destruct (render_svg_clock caseless (with_times None (Some 1700000000) 1)
                (frozen (1700003600 * us_per_second))
                (frozen (1700007200 * us_per_second))) as [_ H].
    apply H. left. discriminate.
  - destruct (render_svg_clock caseless (with_times None (Some 1700000000) 0)
                (frozen (1700003600 * us_per_second))
                {| readings := fun n => 1700003600 * us_per_second + Z.of_nat n - 1;
                   reads := 0 |}) as [H _].
    apply H. reflexivity.
Defined.

(** ** The lists of the card *)

Lemma shown_games_length : forall p, (1 <= length (shown_games p) <= 3)%nat.
Proof.
  intros p. unfold shown_games.
  pose proof (firstn_le_length 3 (recent_games p)) as L.
  destruct (firstn 3 (recent_games p)); cbn [length] in *; lia.
Qed.



Lemma render_svg_first_game :
  forall up p w,
    one_line (RecentGame.name (hd no_recent_games (shown_games p))) ->
    infix (first_game_element
             (escape (RecentGame.name (hd no_recent_games (shown_games p))))
             (human_minutes
                (RecentGame.playtime_2weeks (hd no_recent_games (shown_games p)))))
          (fst (render_svg up p w)).
Proof.
  intros up p w L. rewrite render_svg_card. unfold card_of.
  match goal with
  | |- context [card ?av ?nm ?lt ?st ?il ?g0 ?t0 ?rl ?b0 ?bl ?url] =>
    destruct (card_first_game_line av nm lt st il g0 t0 rl b0 bl url) as [a [b E]]
  end.
  unfold first_game_element.
  eapply keeps_element; [exact E| | | | | |].
  - eexists. vm_compute. reflexivity.
  - exists (removelast tspan_close). vm_compute. reflexivity.
  - apply one_line_check. reflexivity.
  - apply one_line_check. vm_compute. reflexivity.
  - unfold one_line in *. apply Forall_app. split; [apply escape_no_newline; exact L|].
    apply Forall_app. split; [apply one_line_check; reflexivity|].
    apply tame_one_line. apply human_minutes_tame.
  - apply one_line_check. reflexivity.
Qed.

Lemma render_svg_first_badge :
  forall up p w,
    one_line (badge_label (hd collector (shown_badges p))) ->
    infix (first_badge_element
             (escape (badge_label (hd collector (shown_badges p)))))
          (fst (render_svg up p w)).
Proof.
  intros up p w L. rewrite render_svg_card. unfold card_of.
  match goal with
  | |- context [card ?av ?nm ?lt ?st ?il ?g0 ?t0 ?rl ?b0 ?bl ?url] =>
    destruct (card_first_badge_line av nm lt st il g0 t0 rl b0 bl url) as [a [b E]]
  end.
  unfold first_badge_element.
  eapply keeps_element; [exact E| | | | | |].
  - eexists. vm_compute. reflexivity.
  - exists (removelast tspan_close). vm_compute. reflexivity.
  - apply one_line_check. reflexivity.
  - apply one_line_check. vm_compute. reflexivity.
  - apply escape_no_newline. exact L.
  - apply one_line_check. reflexivity.
Qed.



(** ** Texts without white space *)

Lemma rs_solid_prefix :
  forall x r t,
    solid x -> removes_space (x ++ r) t ->
    exists r', t = x ++ r' /\ removes_space r r'.
Proof.
  induction x as [|c x IH]; intros r t S R.
  - exists t. split; [reflexivity|exact R].
  - unfold solid in S. cbn [forallb] in S. apply andb_true_iff in S as [Sc Sx].
    apply negb_true_iff in Sc. cbn [app] in R.
    inversion R as [|c' s' t' R'|c' s' t' Hs R']; subst.
    + destruct (IH r t' Sx R') as [r' [-> R'']]. exists r'.
      split; [reflexivity|exact R''].
    + congruence.
Qed.

Lemma rs_solid_infix :
  forall a x b t,
    solid x -> removes_space (a ++ x ++ b) t ->
    exists a' b', t = a' ++ x ++ b' /\ removes_space a a' /\ removes_space b b'.
Proof.
  induction a as [|c a IH]; intros x b t S R.
  - destruct (rs_solid_prefix x b t S R) as [b' [-> Rb]].
    exists [], b'. repeat split; [constructor|exact Rb].
  - cbn [app] in R. inversion R as [|c' s' t' R'|c' s' t' Hs R']; subst.
    + destruct (IH x b t' S R') as [a' [b' [-> [Ra Rb]]]].
      exists (c :: a'), b'. repeat split; [apply rs_keep; exact Ra|exact Rb].
    + destruct (IH x b t S R') as [a' [b' [-> [Ra Rb]]]].
      exists a', b'. repeat split; [apply rs_drop; assumption|exact Rb].
Qed.

Lemma rs_of_space :
  forall s t, forallb isspace s = true -> removes_space s t ->
              forallb isspace t = true.
Proof.
  intros s t H R. induction R as [|c s t R IH|c s t Hs R IH].
  - reflexivity.
  - cbn [forallb] in *. apply andb_true_iff in H as [H1 H2].
    rewrite H1. cbn [andb]. apply IH. exact H2.
  - cbn [forallb] in H. apply andb_true_iff in H as [_ H2]. apply IH. exact H2.
Qed.

(** The ends of a stripped text are not white space. *)
Lemma lstrip_head :
  forall s c r, lstrip s = c :: r -> isspace c = false.
Proof.
  induction s as [|x s IH]; intros c r E; [discriminate|].
  cbn [lstrip] in E. destruct (isspace x) eqn:X.
  - exact (IH c r E).
  - injection E as <- _. exact X.
Qed.

Lemma strip_head :
  forall s c r, strip s = c :: r -> isspace c = false.
Proof.
  intros s c r E. unfold strip, rstrip in E.
  destruct (lstrip s) as [|x xs] eqn:L; [discriminate|].
  pose proof (lstrip_head s x xs L) as X.
  destruct (lstrip_keeps (rev xs) x [] X) as [pre E'].
  cbn [rev] in E. rewrite E' in E.
  rewrite rev_app_distr in E. cbn [rev app] in E. injection E as <- _. exact X.
Qed.

Lemma strip_last :
  forall s r c, strip s = r ++ [c] -> isspace c = false.
Proof.
  intros s r c E. unfold strip, rstrip in E.
  apply (f_equal (@rev Z)) in E. rewrite rev_involutive, rev_app_distr in E.
  cbn [rev app] in E. exact (lstrip_head _ _ _ E).
Qed.

Lemma space_nil_head :
  forall w r c t,
    forallb isspace w = true -> w ++ r = c :: t -> isspace c = false -> w = [].
Proof.
  intros w r c t H E N. destruct w as [|x w]; [reflexivity|].
  cbn [forallb app] in *. apply andb_true_iff in H as [H _].
  injection E as -> _. congruence.
Qed.

Lemma space_nil_last :
  forall w r c t,
    forallb isspace w = true -> r ++ w = t ++ [c] -> isspace c = false -> w = [].
Proof.
  intros w r c t H E N.
  destruct (rev w) as [|x w'] eqn:W.
  - apply (f_equal (@rev Z)) in W. rewrite rev_involutive in W. exact W.
  - apply (f_equal (@rev Z)) in E. rewrite !rev_app_distr, W in E.
    cbn [rev app] in E. injection E as -> _.
    assert (I : In c w) by (apply in_rev; rewrite W; left; reflexivity).
    rewrite forallb_forall in H. specialize (H c I). congruence.
Qed.

Section CardEnds.

Variables av nm lt st il g0 t0 rl b0 bl url : str.

Lemma card_ends :
  exists middle,
    card av nm lt st il g0 t0 rl b0 bl url =
    (10 :: repeat 32 8) ++ svg_open ++ (middle ++ svg_close ++ 10 :: repeat 32 8).
Proof.
  unfold card.
  match goal with
  | |- exists m, ?S0 ++ av ++ ?S1 ++ nm ++ ?S2 ++ lt ++ ?S3 ++ st ++ ?S4 ++ il
                   ++ ?S5 ++ g0 ++ ?S6 ++ t0 ++ ?S7 ++ rl ++ ?S8 ++ b0
                   ++ ?S9 ++ bl ++ ?S10 ++ url ++ ?S11 = _ =>
    exists (skipn 13 S0 ++ av ++ S1 ++ nm ++ S2 ++ lt ++ S3 ++ st ++ S4 ++ il
              ++ S5 ++ g0 ++ S6 ++ t0 ++ S7 ++ rl ++ S8 ++ b0
              ++ S9 ++ bl ++ S10 ++ url ++ firstn (length S11 - 15) S11);
    assert (E0 : S0 = (10 :: repeat 32 8) ++ svg_open ++ skipn 13 S0)
      by (vm_compute; reflexivity);
    assert (E11 : S11 = firstn (length S11 - 15) S11 ++ svg_close ++ 10 :: repeat 32 8)
      by (vm_compute; reflexivity);
    generalize dependent (skipn 13 S0);
    generalize dependent (firstn (length S11 - 15) S11);
    generalize dependent S1; generalize dependent S2; generalize dependent S3;
    generalize dependent S4; generalize dependent S5; generalize dependent S6;
    generalize dependent S7; generalize dependent S8; generalize dependent S9;
    generalize dependent S10; generalize dependent S0; generalize dependent S11
  end.
  intros. subst. flatten_app. reflexivity.
Qed.

End CardEnds.

Lemma rs_between :
  forall (w0 x m y w1 out : str),
    solid x -> solid y ->
    forallb isspace w0 = true -> forallb isspace w1 = true ->
    removes_space (w0 ++ x ++ m ++ y ++ w1) out ->
    (forall c r, out = c :: r -> isspace c = false) ->
    (forall r c, out = r ++ [c] -> isspace c = false) ->
    exists m', out = x ++ m' ++ y.
Proof.
  intros w0 x m y w1 out Sx Sy S0 S1 R H1 H2.
  destruct (rs_solid_infix _ x _ _ Sx R) as [a' [b' [E [Ra Rb]]]].
  destruct (rs_solid_infix _ y _ _ Sy Rb) as [m' [z' [Eb [_ Rz]]]].
  subst b'. clear R Rb.
  pose proof (rs_of_space _ _ S0 Ra) as Sa.
  pose proof (rs_of_space _ _ S1 Rz) as Sz.
  clear Ra Rz.
  destruct a' as [|c a'].
  2:{ exfalso. cbn [forallb] in Sa. apply andb_true_iff in Sa as [Sc _].
      rewrite (H1 c _ E) in Sc. discriminate Sc. }
  destruct z' as [|c z'] using rev_ind.
  2:{ exfalso. rewrite forallb_app in Sz. apply andb_true_iff in Sz as [_ Sc].
      cbn [forallb] in Sc. rewrite andb_true_r in Sc.
      rewrite !app_assoc in E. rewrite (H2 _ c E) in Sc. discriminate Sc. }
  exists m'. rewrite E, app_nil_r. reflexivity.
Qed.

Lemma card_of_ends :
  forall up p w,
  exists middle,
    card_of up p w =
    (10 :: repeat 32 8) ++ svg_open ++ (middle ++ svg_close ++ 10 :: repeat 32 8).
Proof. intros up p w. unfold card_of. apply card_ends. Qed.

(** X1. Whatever the texts of the profile are, the card is one [svg]
    element: it starts with the opening of the element and ends with its
    closing, with no white space around. *)
Theorem render_svg_complete :
  forall (up : Z -> str) (p : SteamProfile) (w : world),
  exists middle,
    fst (render_svg up p w) = lit "<svg" ++ middle ++ lit "</svg>".
Proof.
  intros up p w.
  destruct (card_of_ends up p w) as [m E].
  apply (rs_between (10 :: repeat 32 8) svg_open m svg_close (10 :: repeat 32 8));
    try reflexivity.
  - rewrite <- E. apply rs_render.
  - intros c r. rewrite render_svg_card. apply strip_head.
  - intros r c. rewrite render_svg_card. apply strip_last.
Qed.

(** ** Playtime *)

Lemma str_of_int_digits :
  forall n, Forall (fun c => 48 <= c <= 57 \/ c = 45) (str_of_int n).
Proof.
  intros n. unfold str_of_int.
  destruct (Z.to_int n) as [d|d]; cbn [NilEmpty.string_of_int].
  - eapply Forall_impl; [|apply uint_chars]. cbn. intros; left; assumption.
  - rewrite lit_cons by (vm_compute; reflexivity). constructor.
    + right. reflexivity.
    + eapply Forall_impl; [|apply uint_chars]. cbn. intros; left; assumption.
Qed.

Lemma app_nonempty_r : forall a b : str, b <> [] -> a ++ b <> [].
Proof. intros a b H E. apply app_eq_nil in E as [_ E]. contradiction. Qed.

(** X2. The text of [human_minutes], which [render_svg] puts into the card as
    it is, is never empty and is made of digits, the minus sign, the space
    and the letters h and m: [escape] would not change it. *)
Theorem human_minutes_plain :
  forall n : Z,
    human_minutes n <> [] /\
    Forall (fun c => 48 <= c <= 57 \/ c = 45 \/ c = 32 \/ c = 104 \/ c = 109)
           (human_minutes n) /\
    escape (human_minutes n) = human_minutes n.
Proof.
  intros n. split; [|split].
  - unfold human_minutes.
    destruct (negb (n / 60 =? 0) && negb (n mod 60 =? 0));
      [|destruct (negb (n / 60 =? 0))];
      repeat apply app_nonempty_r; vm_compute; discriminate.
  - assert (D : forall k, Forall (fun c => 48 <= c <= 57 \/ c = 45 \/ c = 32
                                           \/ c = 104 \/ c = 109) (str_of_int k)).
    { intros k. eapply Forall_impl; [|apply str_of_int_digits].
      cbn. intros c [H|H]; [left; exact H|right; left; exact H]. }
    unfold human_minutes.
    destruct (negb (n / 60 =? 0) && negb (n mod 60 =? 0));
      [|destruct (negb (n / 60 =? 0))];
      repeat (apply Forall_app; split); try apply D;
      apply Forall_forall; intros c I; vm_compute in I;
      repeat (destruct I as [<-|I]); try contradiction; lia.
  - apply escape_tame. apply human_minutes_tame.
Qed.

(** ** A logoff after the clock reading *)

(** X3. When the last logoff lies after the clock reading, [last_seen] gives
    no negative age and no [None]: the days of the negative difference are
    dropped and the text is the age of the rest, the difference modulo one
    day. A logoff one hour ahead reads "23h ago". *)
Theorem last_seen_ahead :
  forall (p : SteamProfile) (w : world) (t : Z),
    lastlogoff p = Some t ->
    t <> 0 -> min_timestamp <= t <= max_timestamp ->
    fst (utcnow w) < t * us_per_second ->
    fst (last_seen p w) =
    Some (relative_age ((fst (utcnow w) - t * us_per_second) mod us_per_day)).
Proof.
  intros p w t E NZ R F. unfold last_seen. rewrite E.
  unfold truthy_oint.
  replace (t =? 0) with false by (symmetry; apply Z.eqb_neq; exact NZ).
  cbn [negb]. unfold utcnow in *. cbn [fst] in *. unfold fromtimestamp.
  replace ((min_timestamp <=? t) && (t <=? max_timestamp)) with true.
  2:{ symmetry. apply andb_true_iff. split; apply Z.leb_le; lia. }
  set (delta := readings w (reads w) - t * us_per_second).
  assert (N : delta < 0) by (unfold delta; lia).
  assert (P : 0 < us_per_day) by (vm_compute; reflexivity).
  assert (D : timedelta_days delta < 0).
  { unfold timedelta_days. apply Z.div_lt_upper_bound; lia. }
  replace (1 <=? timedelta_days delta) with false
    by (symmetry; apply Z.leb_gt; lia).
  pose proof (Z.mod_pos_bound delta us_per_day P) as B.
  rewrite <- (last_seen_age (delta mod us_per_day)) by lia.
  assert (D0 : timedelta_days (delta mod us_per_day) = 0).
  { unfold timedelta_days. apply Z.div_small. exact B. }
  assert (S0 : timedelta_seconds (delta mod us_per_day) = timedelta_seconds delta).
  { unfold timedelta_seconds. rewrite Z.mod_mod by lia. reflexivity. }
  rewrite D0, S0. cbn [Z.leb Z.compare].
  destruct (negb (timedelta_seconds delta / 3600 =? 0)); reflexivity.
Qed.

Lemma last_seen_ahead_witness :
  fst (last_seen (with_times None (Some 1700003600) 0)
                 (frozen (1700000000 * us_per_second)))
  = Some (lit "23h ago").
Proof.
  apply (last_seen_ahead (with_times None (Some 1700003600) 0)
           (frozen (1700000000 * us_per_second)) 1700003600).
  - reflexivity.
  - discriminate.
  - split; vm_compute; discriminate.
  - vm_compute. reflexivity.
Defined.

(** ** The flag *)

Lemma join_chr_length :
  forall l s, join_chr l = Some s -> length s = length l.
Proof.
  induction l as [|o l IH]; intros s E.
  - injection E as <-. reflexivity.
  - cbn [join_chr] in E. destruct o as [c|]; [|discriminate].
    destruct (join_chr l) as [s'|]; [|discriminate].
    injection E as <-. cbn [length]. f_equal. apply IH. reflexivity.
Qed.

Lemma capital_letter : forall c, is_letter c -> is_letter (capital c).
Proof.
  intros c H. unfold capital, is_letter in *.
  destruct ((97 <=? c) && (c <=? 122)) eqn:E; [|exact H].
  apply andb_true_iff in E as [E1 E2].
  apply Z.leb_le in E1. apply Z.leb_le in E2. left. lia.
Qed.

Lemma capital_capital : forall c, is_letter c -> capital (capital c) = capital c.
Proof.
  intros c H. unfold capital at 1.
  pose proof (capital_letter c H) as L.
  assert (C : 65 <= capital c <= 90).
  { unfold capital, is_letter in *.
    destruct ((97 <=? c) && (c <=? 122)) eqn:E; [|lia].
    apply andb_true_iff in E as [E1 E2].
    apply Z.leb_le in E1. apply Z.leb_le in E2. lia. }
  replace ((97 <=? capital c) && (capital c <=? 122)) with false; [reflexivity|].
  symmetry. apply andb_false_iff. left. apply Z.leb_gt. lia.
Qed.

(** X4. A flag, when there is one, has two code points, whatever the case
    table says; and the case of the two letters of a code does not matter:
    the code in small letters gets the flag of the code in capitals. *)
Theorem country_flag_shape :
  forall (up : Z -> str) (p : SteamProfile),
    (forall flag, country_flag up p = Some flag -> length flag = 2%nat) /\
    (forall a b, loccountrycode p = Some [a; b] -> is_letter a -> is_letter b ->
                 country_flag up p =
                 country_flag up (with_country (Some [capital a; capital b]))).
Proof.
  intros up p. split.
  - intros flag. unfold country_flag.
    destruct (negb (truthy_ostr (loccountrycode p))); [discriminate|].
    destruct (loccountrycode p) as [s|]; [|discriminate].
    destruct (Nat.eqb_spec (length (upper up s)) 2) as [L|L]; cbn [negb];
      [|discriminate].
    intros E. apply join_chr_length in E. rewrite length_map in E. lia.
  - intros a b E Ha Hb.
    rewrite (country_flag_letters up p a b E Ha Hb).
    rewrite (country_flag_letters up (with_country (Some [capital a; capital b]))
               (capital a) (capital b) eq_refl
               (capital_letter a Ha) (capital_letter b Hb)).
    rewrite !capital_capital by assumption. reflexivity.
Qed.

Lemma country_flag_shape_witness :
  country_flag caseless (with_country (Some (lit "dE")))
  = country_flag caseless (with_country (Some (lit "DE"))).
Proof.
  destruct (country_flag_shape caseless (with_country (Some (lit "dE")))) as [_ H].
  apply (H 100 69).
  - reflexivity.
  - right. split; vm_compute; discriminate.
  - left. split; vm_compute; discriminate.
Defined.

(** ** The content type *)

Lemma before_first_absent : forall sep s, ~ In sep (before_first sep s).
Proof.
  intros sep s. induction s as [|c r IH]; [intros []|].
  cbn [before_first]. destruct (Z.eqb_spec c sep) as [->|N]; [intros []|].
  intros [E|I]; [contradiction|exact (IH I)].
Qed.

Lemma rs_In : forall s t c, removes_space s t -> In c t -> In c s.
Proof.
  intros s t c R. induction R as [|x s t R IH|x s t Hs R IH]; intros I.
  - exact I.
  - destruct I as [E|I]; [left; exact E|right; exact (IH I)].
  - right. exact (IH I).
Qed.

(** X5. The content type of a data URI is never empty. When it is taken
    from the header it holds no semicolon and has no white space at either
    end, so the [;base64,] that follows it in the URI is the first
    semicolon. *)
Theorem normalize_content_type_clean :
  forall (guess : str -> option str) (header : option str) (url : str),
    let t := _normalize_content_type guess header url in
    t <> [] /\
    (declared_type header <> [] ->
     t = declared_type header /\ ~ In 59 t /\
     (forall c r, t = c :: r -> isspace c = false) /\
     (forall r c, t = r ++ [c] -> isspace c = false)).
Proof.
  intros guess header url t. subst t.
  rewrite normalize_content_type_spec. unfold chosen_type. split.
  - destruct (declared_type header) as [|c r] eqn:D; cbn [truthy_str].
    + destruct (guess url) as [[|g gs]|]; cbn [truthy_str];
        [vm_compute|..]; discriminate.
    + discriminate.
  - intros N. destruct (declared_type header) as [|c r] eqn:D; [contradiction|].
    cbn [truthy_str]. split; [reflexivity|]. rewrite <- D. clear D N.
    unfold declared_type. destruct header as [h|].
    + split; [|split].
      * intros I. apply (rs_In _ _ _ (rs_strip _)) in I.
        exact (before_first_absent 59 h I).
      * apply strip_head.
      * apply strip_last.
    + split; [intros []|split; [discriminate|]].
      intros r' c' E. destruct r'; discriminate.
Qed.

Lemma normalize_content_type_clean_witness :
  _normalize_content_type no_guess (Some (lit " image/png ; charset=binary"))
    (lit "http://x/a")
  = lit "image/png".
Proof.
  destruct (normalize_content_type_clean no_guess
              (Some (lit " image/png ; charset=binary")) (lit "http://x/a"))
    as [_ H].
  destruct H as [H _]; [vm_compute; discriminate|]. exact H.
Defined.

(** ** The cache files *)








(** ** The entries of the two lists *)

Section CardEntryLines.

Variables av nm lt st il g0 t0 rl b0 bl url : str.

Lemma card_recent_lines_line :
  exists a b,
    card av nm lt st il g0 t0 rl b0 bl url =
    a ++ 10 :: (repeat 32 14 ++ rl) ++ 10 :: b.
Proof.
  unfold card.
  match goal with
  | |- exists a b, ?S0 ++ av ++ ?S1 ++ nm ++ ?S2 ++ lt ++ ?S3 ++ st ++ ?S4 ++ il
                     ++ ?S5 ++ g0 ++ ?S6 ++ t0 ++ ?S7 ++ rl ++ ?S8 ++ ?R = _ =>
    exists (S0 ++ av ++ S1 ++ nm ++ S2 ++ lt ++ S3 ++ st ++ S4 ++ il
               ++ S5 ++ g0 ++ S6 ++ t0 ++ before_last 10 S7),
           (after_first 10 S8 ++ R);
    assert (E7 : S7 = before_last 10 S7 ++ 10 :: repeat 32 14)
      by (vm_compute; reflexivity);
    assert (E8 : S8 = 10 :: after_first 10 S8)
      by (vm_compute; reflexivity);
    generalize dependent (before_last 10 S7);
    generalize dependent (after_first 10 S8);
    generalize dependent R;
    generalize dependent S0; generalize dependent S1; generalize dependent S2;
    generalize dependent S3; generalize dependent S4; generalize dependent S5;
    generalize dependent S6; generalize dependent S7; generalize dependent S8
  end.
  intros. subst. flatten_app. reflexivity.
Qed.

Lemma card_badge_lines_line :
  exists a b,
    card av nm lt st il g0 t0 rl b0 bl url =
    a ++ 10 :: (repeat 32 14 ++ bl) ++ 10 :: b.
Proof.
  unfold card.
  match goal with
  | |- exists a b, ?S0 ++ av ++ ?S1 ++ nm ++ ?S2 ++ lt ++ ?S3 ++ st ++ ?S4 ++ il
                     ++ ?S5 ++ g0 ++ ?S6 ++ t0 ++ ?S7 ++ rl ++ ?S8 ++ b0
                     ++ ?S9 ++ bl ++ ?S10 ++ ?R = _ =>
    exists (S0 ++ av ++ S1 ++ nm ++ S2 ++ lt ++ S3 ++ st ++ S4 ++ il
               ++ S5 ++ g0 ++ S6 ++ t0 ++ S7 ++ rl ++ S8 ++ b0
               ++ before_last 10 S9),
           (after_first 10 S10 ++ R);
    assert (E9 : S9 = before_last 10 S9 ++ 10 :: repeat 32 14)
      by (vm_compute; reflexivity);
    assert (E10 : S10 = 10 :: after_first 10 S10)
      by (vm_compute; reflexivity);
    generalize dependent (before_last 10 S9);
    generalize dependent (after_first 10 S10);
    generalize dependent R;
    generalize dependent S0; generalize dependent S1; generalize dependent S2;
    generalize dependent S3; generalize dependent S4; generalize dependent S5;
    generalize dependent S6; generalize dependent S8;
    generalize dependent S9; generalize dependent S10
  end.
  intros. subst. flatten_app. reflexivity.
Qed.

End CardEntryLines.

Lemma keeps_line :
  forall text a ind l b,
    text = a ++ 10 :: (ind ++ l) ++ 10 :: b ->
    one_line ind -> one_line l -> bracketed l ->
    infix l (strip (dedent text)).
Proof.
  intros text a ind l b E Li Ll [mid El]. subst text l.
  apply stripped_dedent_keeps_line; try reflexivity.
  unfold one_line in *. apply Forall_app. split; assumption.
Qed.

Lemma infix_trans : forall x y z, infix x y -> infix y z -> infix x z.
Proof.
  intros x y z [p1 [q1 E1]] [p2 [q2 E2]]. exists (p2 ++ p1), (q1 ++ q2).
  rewrite E2, E1, <- !app_assoc. reflexivity.
Qed.

Lemma in_concat_infix :
  forall (x : str) ls, In x ls -> infix x (concat ls).
Proof.
  intros x ls. induction ls as [|y r IH]; intros I; [contradiction|].
  cbn [concat]. destruct I as [->|I].
  - exists [], (concat r). reflexivity.
  - destruct (IH I) as [pre [post E]]. exists (y ++ pre), post.
    rewrite E, <- !app_assoc. reflexivity.
Qed.

Lemma concat_bracketed :
  forall (A : Type) (f : A -> str) (l : list A),
    (forall x, bracketed (f x)) -> l <> [] -> bracketed (concat (map f l)).
Proof.
  intros A f l H. induction l as [|x r IH]; intros N; [contradiction|].
  cbn [map concat]. destruct (H x) as [m E]. destruct r as [|y r].
  - cbn [map concat]. rewrite app_nil_r. exists m. exact E.
  - destruct (IH ltac:(discriminate)) as [m' E']. rewrite E, E'.
    exists (m ++ [62] ++ 60 :: m'). cbn [app]. rewrite <- !app_assoc.
    reflexivity.
Qed.

Lemma concat_one_line :
  forall (A : Type) (f : A -> str) (l : list A),
    (forall x, In x l -> one_line (f x)) -> one_line (concat (map f l)).
Proof.
  intros A f l H. induction l as [|x r IH]; [constructor|].
  cbn [map concat]. unfold one_line in *. apply Forall_app. split.
  - apply H. left. reflexivity.
  - apply IH. intros y I. apply H. right. exact I.
Qed.

Lemma recent_line_bracketed : forall g, bracketed (recent_line g).
Proof.
  intros g. unfold recent_line.
  set (o := lit "<tspan x='20' dy='16'>"). set (c := lit "</tspan>").
  assert (Eo : o = 60 :: tl o) by (vm_compute; reflexivity).
  assert (Ec : c = removelast c ++ [62]) by (vm_compute; reflexivity).
  clearbody o c.
  exists (tl o ++ escape (RecentGame.name g) ++ lit " — "
            ++ human_minutes (RecentGame.playtime_2weeks g) ++ removelast c).
  rewrite Eo at 1. rewrite Ec at 1. cbn [app]. rewrite <- !app_assoc.
  reflexivity.
Qed.

Lemma badge_line_bracketed : forall b, bracketed (badge_line b).
Proof.
  intros b. unfold badge_line.
  set (o := lit "<tspan x='20' dy='16'>"). set (c := lit "</tspan>").
  assert (Eo : o = 60 :: tl o) by (vm_compute; reflexivity).
  assert (Ec : c = removelast c ++ [62]) by (vm_compute; reflexivity).
  clearbody o c.
  exists (tl o ++ escape (badge_label b) ++ removelast c).
  rewrite Eo at 1. rewrite Ec at 1. cbn [app]. rewrite <- !app_assoc.
  reflexivity.
Qed.

Lemma recent_line_one_line :
  forall g, one_line (RecentGame.name g) -> one_line (recent_line g).
Proof.
  intros g H. unfold recent_line, one_line in *.
  repeat (apply Forall_app; split);
    first [ apply escape_no_newline; exact H
          | apply tame_one_line; apply human_minutes_tame
          | apply one_line_check; reflexivity ].
Qed.

Lemma badge_label_one_line :
  forall b, one_line (BadgeHighlight.name b) -> one_line (badge_label b).
Proof.
  intros b H. unfold badge_label.
  destruct (truthy_oint (BadgeHighlight.level b)); [|exact H].
  unfold one_line in *. apply Forall_app. split; [exact H|].
  apply Forall_app. split; [apply one_line_check; reflexivity|].
  destruct (BadgeHighlight.level b);
    [apply tame_one_line; apply str_of_int_tame|apply one_line_check; reflexivity].
Qed.

Lemma badge_line_one_line :
  forall b, one_line (BadgeHighlight.name b) -> one_line (badge_line b).
Proof.
  intros b H. unfold badge_line, one_line in *.
  repeat (apply Forall_app; split);
    first [ apply escape_no_newline; apply badge_label_one_line; exact H
          | apply one_line_check; reflexivity ].
Qed.

Lemma game_entry_in_line : forall g, infix (game_entry g) (recent_line g).
Proof.
  intros g. unfold game_entry, recent_line.
  exists (removelast (lit "<tspan x='20' dy='16'>")), [].
  change (lit "<tspan x='20' dy='16'>")
    with (removelast (lit "<tspan x='20' dy='16'>") ++ lit ">") at 1.
  rewrite app_nil_r, <- !app_assoc. reflexivity.
Qed.

Lemma badge_entry_in_line : forall b, infix (badge_entry b) (badge_line b).
Proof.
  intros b. unfold badge_entry, badge_line.
  exists (removelast (lit "<tspan x='20' dy='16'>")), [].
  change (lit "<tspan x='20' dy='16'>")
    with (removelast (lit "<tspan x='20' dy='16'>") ++ lit ">") at 1.
  rewrite app_nil_r, <- !app_assoc. reflexivity.
Qed.

Lemma game_entry_in_first :
  forall g, infix (game_entry g)
                  (first_game_element (escape (RecentGame.name g))
                     (human_minutes (RecentGame.playtime_2weeks g))).
Proof.
  intros g. unfold game_entry, first_game_element.
  exists (removelast tspan_open), [].
  change tspan_open with (removelast tspan_open ++ lit ">") at 1.
  unfold tspan_close. rewrite app_nil_r, <- !app_assoc. reflexivity.
Qed.

Lemma badge_entry_in_first :
  forall b, infix (badge_entry b) (first_badge_element (escape (badge_label b))).
Proof.
  intros b. unfold badge_entry, first_badge_element.
  exists (removelast tspan_open), [].
  change tspan_open with (removelast tspan_open ++ lit ">") at 1.
  unfold tspan_close. rewrite app_nil_r, <- !app_assoc. reflexivity.
Qed.

Lemma render_svg_recent_lines :
  forall up p w,
    tl (shown_games p) <> [] ->
    (forall g, In g (tl (shown_games p)) -> one_line (RecentGame.name g)) ->
    infix (concat (map recent_line (tl (shown_games p)))) (fst (render_svg up p w)).
Proof.
  intros up p w N L. rewrite render_svg_card. unfold card_of.
  match goal with
  | |- context [card ?av ?nm ?lt ?st ?il ?g0 ?t0 ?rl ?b0 ?bl ?url] =>
    destruct (card_recent_lines_line av nm lt st il g0 t0 rl b0 bl url) as [a [b E]]
  end.
  eapply keeps_line; [exact E| | |].
  - apply one_line_check. reflexivity.
  - apply concat_one_line. intros g I. apply recent_line_one_line. apply L. exact I.
  - apply concat_bracketed; [apply recent_line_bracketed|exact N].
Qed.

Lemma render_svg_badge_lines :
  forall up p w,
    tl (shown_badges p) <> [] ->
    (forall b, In b (tl (shown_badges p)) -> one_line (BadgeHighlight.name b)) ->
    infix (concat (map badge_line (tl (shown_badges p)))) (fst (render_svg up p w)).
Proof.
  intros up p w N L. rewrite render_svg_card. unfold card_of.
  match goal with
  | |- context [card ?av ?nm ?lt ?st ?il ?g0 ?t0 ?rl ?b0 ?bl ?url] =>
    destruct (card_badge_lines_line av nm lt st il g0 t0 rl b0 bl url) as [a [b E]]
  end.
  eapply keeps_line; [exact E| | |].
  - apply one_line_check. reflexivity.
  - apply concat_one_line. intros g I. apply badge_line_one_line. apply L. exact I.
  - apply concat_bracketed; [apply badge_line_bracketed|exact N].
Qed.

Lemma in_firstn : forall (A : Type) n (l : list A) x, In x (firstn n l) -> In x l.
Proof.
  intros A n. induction n as [|n IH]; intros l x I; [contradiction|].
  destruct l as [|y l]; [contradiction|]. cbn [firstn] in I.
  destruct I as [E|I]; [left; exact E|right; exact (IH l x I)].
Qed.

Lemma shown_games_from :
  forall p g, In g (shown_games p) -> g = no_recent_games \/ In g (recent_games p).
Proof.
  intros p g. unfold shown_games.
  destruct (firstn 3 (recent_games p)) eqn:E.
  - intros [<-|[]]. left. reflexivity.
  - intros I. right. apply (in_firstn _ 3). rewrite E. exact I.
Qed.

Lemma shown_badges_from :
  forall p b, In b (shown_badges p) -> b = collector \/ In b (badge_highlights p).
Proof.
  intros p b. unfold shown_badges.
  destruct (firstn 3 (badge_highlights p)) eqn:E.
  - intros [<-|[]]. left. reflexivity.
  - intros I. right. apply (in_firstn _ 3). rewrite E. exact I.
Qed.

(** X8. When the names of the games and of the badges have no line feed, the
    card shows every entry of [shown_games] and [shown_badges], the first
    one and the ones after it alike: the escaped name of the game with its
    playtime, and the escaped label of the badge, each closed by its
    [tspan] tag. *)
Theorem render_svg_shows_entries :
  forall (up : Z -> str) (p : SteamProfile) (w : world),
    Forall (fun g => one_line (RecentGame.name g)) (recent_games p) ->
    Forall (fun b => one_line (BadgeHighlight.name b)) (badge_highlights p) ->
    (forall g, In g (shown_games p) ->
               infix (game_entry g) (fst (render_svg up p w))) /\
    (forall b, In b (shown_badges p) ->
               infix (badge_entry b) (fst (render_svg up p w))).
Proof.
  intros up p w Hg Hb.
  assert (Lg : forall g, In g (shown_games p) -> one_line (RecentGame.name g)).
  { intros g I. destruct (shown_games_from p g I) as [->|I'].
    - apply one_line_check. reflexivity.
    - rewrite Forall_forall in Hg. exact (Hg g I'). }
  assert (Lb : forall b, In b (shown_badges p) -> one_line (BadgeHighlight.name b)).
  { intros b I. destruct (shown_badges_from p b I) as [->|I'].
    - apply one_line_check. reflexivity.
    - rewrite Forall_forall in Hb. exact (Hb b I'). }
  split.
  - intros g I. pose proof (shown_games_length p) as Len.
    destruct (shown_games p) as [|g1 gs] eqn:S; [contradiction|].
    destruct I as [<-|I].
    + apply infix_trans with
        (first_game_element (escape (RecentGame.name g1))
           (human_minutes (RecentGame.playtime_2weeks g1))).
      * apply game_entry_in_first.
      * pose proof (render_svg_first_game up p w) as F. rewrite S in F.
        apply F. apply Lg. left. reflexivity.
    + apply infix_trans with (recent_line g); [apply game_entry_in_line|].
      apply infix_trans with (concat (map recent_line gs)).
      * apply in_concat_infix. apply in_map. exact I.
      * pose proof (render_svg_recent_lines up p w) as F. rewrite S in F.
        apply F.
        -- cbn [tl]. intros ->. contradiction.
        -- cbn [tl]. intros g' I'. apply Lg. right. exact I'.
  - intros b I.
    destruct (shown_badges p) as [|b1 bs] eqn:S; [contradiction|].
    destruct I as [<-|I].
    + apply infix_trans with (first_badge_element (escape (badge_label b1))).
      * apply badge_entry_in_first.
      * pose proof (render_svg_first_badge up p w) as F. rewrite S in F.
        apply F. apply badge_label_one_line. apply Lb. left. reflexivity.
    + apply infix_trans with (badge_line b); [apply badge_entry_in_line|].
      apply infix_trans with (concat (map badge_line bs)).
      * apply in_concat_infix. apply in_map. exact I.
      * pose proof (render_svg_badge_lines up p w) as F. rewrite S in F.
        apply F.
        -- cbn [tl]. intros ->. contradiction.
        -- cbn [tl]. intros b' I'. apply Lb. right. exact I'.
Qed.

Lemma render_svg_shows_entries_witness :
  infix (lit ">B — 2h</tspan>")
        (fst (render_svg caseless five_of_each (frozen 0))) /\
  infix (lit ">Three</tspan>")
        (fst (render_svg caseless five_of_each (frozen 0))).
Proof.
  destruct (render_svg_shows_entries caseless five_of_each (frozen 0)) as [G B].
  - repeat (apply Forall_cons; [apply one_line_check; reflexivity|]).
    apply Forall_nil.
  - repeat (apply Forall_cons; [apply one_line_check; reflexivity|]).
    apply Forall_nil.
  - split.
    + apply (G (RecentGame.mk (lit "B") 120)). right. left. reflexivity.
    + apply (B (BadgeHighlight.mk (lit "Three") (Some 0))).
      right. right. left. reflexivity.
Defined.

(** ** The month of the registration *)











(** ** The other fields of the card *)

Section CardFieldLines.

Variables av nm lt st il g0 t0 rl b0 bl url : str.

Lemma card_image_line :
  exists a b,
    card av nm lt st il g0 t0 rl b0 bl url =
    a ++ 10 :: (repeat 32 10 ++ image_open ++ av ++ image_rest) ++ 10 :: b.
Proof.
  unfold card.
  match goal with
  | |- exists a b, ?S0 ++ av ++ ?S1 ++ ?R = _ =>
    exists (before_last 10 S0), (after_first 10 S1 ++ R);
    assert (E0 : S0 = before_last 10 S0 ++ 10 :: repeat 32 10 ++ image_open)
      by (vm_compute; reflexivity);
    assert (E1 : S1 = image_rest ++ 10 :: after_first 10 S1)
      by (vm_compute; reflexivity);
    generalize dependent (before_last 10 S0);
    generalize dependent (after_first 10 S1);
    generalize dependent R;
    generalize dependent S0; generalize dependent S1
  end.
  intros. subst. flatten_app. reflexivity.
Qed.

Lemma card_level_line :
  exists a b,
    card av nm lt st il g0 t0 rl b0 bl url =
    a ++ 10 :: (repeat 32 12 ++ level_open ++ lt ++ text_close) ++ 10 :: b.
Proof.
  unfold card.
  match goal with
  | |- exists a b, ?S0 ++ av ++ ?S1 ++ nm ++ ?S2 ++ lt ++ ?S3 ++ ?R = _ =>
    exists (S0 ++ av ++ S1 ++ nm ++ before_last 10 S2),
           (after_first 10 S3 ++ R);
    assert (E2 : S2 = before_last 10 S2 ++ 10 :: repeat 32 12 ++ level_open)
      by (vm_compute; reflexivity);
    assert (E3 : S3 = text_close ++ 10 :: after_first 10 S3)
      by (vm_compute; reflexivity);
    generalize dependent (before_last 10 S2);
    generalize dependent (after_first 10 S3);
    generalize dependent R;
    generalize dependent S0; generalize dependent S1; generalize dependent S2;
    generalize dependent S3
  end.
  intros. subst. flatten_app. reflexivity.
Qed.

Lemma card_info_line :
  exists a b,
    card av nm lt st il g0 t0 rl b0 bl url =
    a ++ 10 :: (repeat 32 12 ++ info_open ++ il ++ text_close) ++ 10 :: b.
Proof.
  unfold card.
  match goal with
  | |- exists a b, ?S0 ++ av ++ ?S1 ++ nm ++ ?S2 ++ lt ++ ?S3 ++ st ++ ?S4 ++ il
                     ++ ?S5 ++ ?R = _ =>
    exists (S0 ++ av ++ S1 ++ nm ++ S2 ++ lt ++ S3 ++ st ++ before_last 10 S4),
           (after_first 10 S5 ++ R);
    assert (E4 : S4 = before_last 10 S4 ++ 10 :: repeat 32 12 ++ info_open)
      by (vm_compute; reflexivity);
    assert (E5 : S5 = text_close ++ 10 :: after_first 10 S5)
      by (vm_compute; reflexivity);
    generalize dependent (before_last 10 S4);
    generalize dependent (after_first 10 S5);
    generalize dependent R;
    generalize dependent S0; generalize dependent S1; generalize dependent S2;
    generalize dependent S3; generalize dependent S4; generalize dependent S5
  end.
  intros. subst. flatten_app. reflexivity.
Qed.

Lemma card_link_line :
  exists a b,
    card av nm lt st il g0 t0 rl b0 bl url =
    a ++ 10 :: (repeat 32 10 ++ link_open ++ url ++ link_rest) ++ 10 :: b.
Proof.
  unfold card.
  match goal with
  | |- exists a b, ?S0 ++ av ++ ?S1 ++ nm ++ ?S2 ++ lt ++ ?S3 ++ st ++ ?S4 ++ il
                     ++ ?S5 ++ g0 ++ ?S6 ++ t0 ++ ?S7 ++ rl ++ ?S8 ++ b0
                     ++ ?S9 ++ bl ++ ?S10 ++ url ++ ?S11 = _ =>
    exists (S0 ++ av ++ S1 ++ nm ++ S2 ++ lt ++ S3 ++ st ++ S4 ++ il
               ++ S5 ++ g0 ++ S6 ++ t0 ++ S7 ++ rl ++ S8 ++ b0
               ++ S9 ++ bl ++ before_last 10 S10),
           (after_first 10 S11);
    assert (E10 : S10 = before_last 10 S10 ++ 10 :: repeat 32 10 ++ link_open)
      by (vm_compute; reflexivity);
    assert (E11 : S11 = link_rest ++ 10 :: after_first 10 S11)
      by (vm_compute; reflexivity);
    generalize dependent (before_last 10 S10);
    generalize dependent (after_first 10 S11);
    generalize dependent S0; generalize dependent S1; generalize dependent S2;
    generalize dependent S3; generalize dependent S4; generalize dependent S5;
    generalize dependent S6; generalize dependent S8;
    generalize dependent S10; generalize dependent S11
  end.
  intros. subst. flatten_app. reflexivity.
Qed.

End CardFieldLines.

Lemma level_text_tame : forall p, Forall tame (level_text_of p).
Proof.
  intros p. unfold level_text_of. destruct (level p) as [n|].
  - apply Forall_app. split; [tame_closed|apply str_of_int_tame].
  - tame_closed.
Qed.

(** X10. The other fields of the card: the level is found in its element
    as [Level n], or as [Level hidden] when the profile has none; the info
    line, the profile URL and the image are found escaped, each in its
    element, when they have no line feed; and the image is the embedded
    avatar when the profile has a non-empty one, the built-in one
    otherwise. *)
Theorem render_svg_fields :
  forall (up : Z -> str) (p : SteamProfile) (w : world),
    let svg := fst (render_svg up p w) in
    infix (level_element (level_text_of p)) svg /\
    (one_line (info_line_of up p) ->
     infix (info_element (escape (info_line_of up p))) svg) /\
    (one_line (profileurl p) -> infix (link_tag (escape (profileurl p))) svg) /\
    (one_line (avatar_of p) -> infix (image_tag (escape (avatar_of p))) svg) /\
    (forall uri, avatar_data_uri p = Some uri -> uri <> [] -> avatar_of p = uri) /\
    (avatar_data_uri p = None \/ avatar_data_uri p = Some [] ->
     avatar_of p = DEFAULT_AVATAR_DATA_URI) /\
    one_line DEFAULT_AVATAR_DATA_URI.
Proof.
  intros up p w svg. subst svg.
  split; [|split; [|split; [|split; [|split; [|split]]]]].
  - rewrite render_svg_card. unfold card_of.
    rewrite (escape_tame _ (level_text_tame p)).
    match goal with
    | |- context [card ?av ?nm ?lt ?st ?il ?g0 ?t0 ?rl ?b0 ?bl ?url] =>
      destruct (card_level_line av nm lt st il g0 t0 rl b0 bl url) as [a [b E]]
    end.
    unfold level_element.
    eapply keeps_element; [exact E| | | | | |].
    + eexists. vm_compute. reflexivity.
    + exists (removelast text_close). vm_compute. reflexivity.
    + apply one_line_check. reflexivity.
    + apply one_line_check. vm_compute. reflexivity.
    + apply tame_one_line. apply level_text_tame.
    + apply one_line_check. reflexivity.
  - intros L. rewrite render_svg_card. unfold card_of.
    match goal with
    | |- context [card ?av ?nm ?lt ?st ?il ?g0 ?t0 ?rl ?b0 ?bl ?url] =>
      destruct (card_info_line av nm lt st il g0 t0 rl b0 bl url) as [a [b E]]
    end.
    unfold info_element.
    eapply keeps_element; [exact E| | | | | |].
    + eexists. vm_compute. reflexivity.
    + exists (removelast text_close). vm_compute. reflexivity.
    + apply one_line_check. reflexivity.
    + apply one_line_check. vm_compute. reflexivity.
    + apply escape_no_newline. exact L.
    + apply one_line_check. reflexivity.
  - intros L. rewrite render_svg_card. unfold card_of.
    match goal with
    | |- context [card ?av ?nm ?lt ?st ?il ?g0 ?t0 ?rl ?b0 ?bl ?url] =>
      destruct (card_link_line av nm lt st il g0 t0 rl b0 bl url) as [a [b E]]
    end.
    unfold link_tag.
    eapply keeps_element; [exact E| | | | | |].
    + eexists. vm_compute. reflexivity.
    + exists (removelast link_rest). vm_compute. reflexivity.
    + apply one_line_check. reflexivity.
    + apply one_line_check. vm_compute. reflexivity.
    + apply escape_no_newline. exact L.
    + apply one_line_check. vm_compute. reflexivity.
  - intros L. rewrite render_svg_card. unfold card_of.
    match goal with
    | |- context [card ?av ?nm ?lt ?st ?il ?g0 ?t0 ?rl ?b0 ?bl ?url] =>
      destruct (card_image_line av nm lt st il g0 t0 rl b0 bl url) as [a [b E]]
    end.
    unfold image_tag.
    eapply keeps_element; [exact E| | | | | |].
    + eexists. vm_compute. reflexivity.
    + exists (removelast image_rest). vm_compute. reflexivity.
    + apply one_line_check. reflexivity.
    + apply one_line_check. vm_compute. reflexivity.
    + apply escape_no_newline. exact L.
    + apply one_line_check. vm_compute. reflexivity.
  - intros uri E N. unfold avatar_of. rewrite E.
    destruct uri; [contradiction|reflexivity].
  - intros [E|E]; unfold avatar_of; rewrite E; reflexivity.
  - apply one_line_check. vm_compute. reflexivity.
Qed.

Lemma render_svg_fields_witness :
  infix (level_element (lit "Level hidden"))
        (fst (render_svg caseless bare_profile (frozen 0))) /\
  infix (image_tag DEFAULT_AVATAR_DATA_URI)
        (fst (render_svg caseless bare_profile (frozen 0))).
Proof.
  destruct (render_svg_fields caseless bare_profile (frozen 0))
    as [H1 [_ [_ [H4 _]]]].
  split; [exact H1|].
  assert (E : escape (avatar_of bare_profile) = DEFAULT_AVATAR_DATA_URI)
    by (vm_compute; reflexivity).
  rewrite <- E. apply H4. apply one_line_check. vm_compute. reflexivity.
Defined.

(** X11. The card does not depend on the identifier of the profile, on the
    address of the remote avatar or on the flags of the status: profiles
    that differ in these fields only have the same card. *)
Theorem render_svg_ignores :
  forall (up : Z -> str) (p : SteamProfile) (id url : str) (flags : option Z)
         (w : world),
    render_svg up (with_identity p id url flags) w = render_svg up p w.
Proof.
  intros up p id url flags w. unfold render_svg. reflexivity.
Qed.

(** ** The API calls *)

Lemma py_bind_val :
  forall (A B : Type) (m : py A) (f : A -> py B) (b : B),
    py_bind m f = Val b -> exists a, m = Val a /\ f a = Val b.
Proof.
  intros A B m f b H. destruct m as [a| |]; try discriminate.
  exists a. split; [reflexivity|exact H].
Qed.

Lemma typed_val :
  forall (A : Type) (o : option A) (a : A), typed o = Val a -> o = Some a.
Proof. intros A [x|] a H; [injection H as ->; reflexivity|discriminate]. Qed.

Lemma str_of_int_nonempty : forall n, str_of_int n <> [].
Proof.
  intros n. unfold str_of_int.
  assert (U : forall d, d <> Decimal.Nil -> lit (NilEmpty.string_of_uint d) <> []).
  { intros d N. destruct d; [contradiction|..]; cbn [NilEmpty.string_of_uint];
      rewrite lit_cons by (vm_compute; reflexivity); discriminate. }
  destruct n as [|q|q]; cbn [Z.to_int NilEmpty.string_of_int].
  - vm_compute. discriminate.
  - apply U. apply Stdlib.Numbers.DecimalPos.Unsigned.to_uint_nonnil.
  - rewrite lit_cons by (vm_compute; reflexivity). discriminate.
Qed.

Lemma py_str_truthy :
  forall v s, truthy v = true -> py_str v = Some s -> s <> [].
Proof.
  intros v s T E. destruct v as [|b|n|x|l|d]; cbn [py_str truthy] in *;
    try discriminate.
  - destruct b; [|discriminate]. injection E as <-. vm_compute. discriminate.
  - injection E as <-. apply str_of_int_nonempty.
  - injection E as <-. destruct x; [discriminate T|discriminate].
Qed.

(** X12. [resolve_vanity] gives an identifier only when the answer of the API
    has [success] equal to 1, and the identifier is never empty; when the
    request fails, or [success] is another value, or [steamid] is missing
    or empty, it raises. *)
Theorem resolve_vanity_checked :
  forall (session : Http) (api_key vanity : str),
    let answer :=
      fetch_json session (lit "/ISteamUser/ResolveVanityURL/v1/")
        [ (lit "key", JStr api_key); (lit "vanityurl", JStr vanity) ] in
    (forall s, resolve_vanity session api_key vanity = Val s ->
               s <> [] /\
               exists data response,
                 answer = Val (JDict data) /\
                 get data "response" (JDict []) = JDict response /\
                 differs_from_1 (get response "success" JNull) = false /\
                 py_str (get response "steamid" JNull) = Some s) /\
    (answer = Exc -> resolve_vanity session api_key vanity = Exc) /\
    (forall data response,
       answer = Val (JDict data) ->
       get data "response" (JDict []) = JDict response ->
       differs_from_1 (get response "success" JNull) = true
       \/ truthy (get response "steamid" JNull) = false ->
       resolve_vanity session api_key vanity = Exc).
Proof.
  intros session api_key vanity answer. subst answer.
  split; [|split].
  - intros s H. unfold resolve_vanity in H.
    apply py_bind_val in H as [data [Hd H]].
    apply py_bind_val in H as [response [Hr H]].
    apply py_bind_val in H as [success [Hs H]].
    destruct (differs_from_1 success) eqn:D; [discriminate|].
    apply py_bind_val in H as [sid [Hi H]].
    destruct (truthy sid) eqn:T; cbn [negb] in H; [|discriminate].
    apply typed_val in H.
    split; [exact (py_str_truthy sid s T H)|].
    destruct data as [| | | | |data]; try discriminate.
    destruct response as [| | | | |response]; try discriminate.
    exists data, response. cbn [attr_get] in *.
    injection Hr as Hr. injection Hs as <-. injection Hi as <-.
    repeat split; assumption.
  - intros E. unfold resolve_vanity. rewrite E. reflexivity.
  - intros data response E R H. unfold resolve_vanity. rewrite E.
    cbn [py_bind attr_get]. rewrite R. cbn [py_bind attr_get].
    destruct (differs_from_1 (get response "success" JNull)); [reflexivity|].
    destruct H as [H|H]; [discriminate|]. cbn [py_bind]. rewrite H. reflexivity.
Qed.

Lemma resolve_vanity_checked_witness :
  resolve_vanity steam_api (lit "KEY") (lit "gamer")
  = Val (lit "76561198000000000") /\
  lit "76561198000000000" <> [] /\
  resolve_vanity unreachable_api (lit "KEY") (lit "gamer") = Exc.
Proof.
  destruct (resolve_vanity_checked steam_api (lit "KEY") (lit "gamer"))
    as [H _].
  destruct (resolve_vanity_checked unreachable_api (lit "KEY") (lit "gamer"))
    as [_ [H' _]].
  assert (E : resolve_vanity steam_api (lit "KEY") (lit "gamer")
              = Val (lit "76561198000000000")) by (vm_compute; reflexivity).
  split; [exact E|]. split.
  - exact (proj1 (H _ E)).
  - apply H'. vm_compute. reflexivity.
Defined.

(** ** The profile from the API *)

Lemma fetch_avatar_data_returns :
  forall guess session urlopen url,
    exists r, fetch_avatar_data guess session urlopen url = Returns r.
Proof.
  intros guess session urlopen url. unfold fetch_avatar_data.
  destruct (negb (truthy_str url)); [eexists; reflexivity|].
  destruct (try_except (fetch_avatar_try session urlopen url) None)
    as [[data ct]|]; [|eexists; reflexivity].
  destruct data; eexists; reflexivity.
Qed.

Lemma py_traverse_val :
  forall (A B : Type) (f : A -> py B) (l : list A) (r : list B),
    py_traverse f l = Val r -> Forall2 (fun x y => f x = Val y) l r.
Proof.
  intros A B f l. induction l as [|x l IH]; intros r H; cbn [py_traverse] in H.
  - injection H as <-. constructor.
  - apply py_bind_val in H as [y [Ey H]].
    apply py_bind_val in H as [ys [Eys H]].
    injection H as <-. constructor; [exact Ey|exact (IH ys Eys)].
Qed.

Lemma py_traverse_length :
  forall (A B : Type) (f : A -> py B) (l : list A) (r : list B),
    py_traverse f l = Val r -> length r = length l.
Proof.
  intros A B f l r H. apply py_traverse_val in H.
  induction H; cbn [length]; congruence.
Qed.

Lemma py_traverse_all :
  forall (A B : Type) (f : A -> py B) (P : B -> Prop) (l : list A) (r : list B),
    (forall x y, f x = Val y -> P y) ->
    py_traverse f l = Val r -> Forall P r.
Proof.
  intros A B f P l r HP H. apply py_traverse_val in H.
  induction H; constructor; eauto.
Qed.

Lemma fetch_badge_name :
  forall badge h, fetch_badge badge = Val h -> BadgeHighlight.name h <> [].
Proof.
  intros badge h H. unfold fetch_badge in H.
  apply py_bind_val in H as [name [E1 H]].
  apply py_bind_val in H as [name' [E2 H]].
  apply py_bind_val in H as [lv [E3 H]].
  apply py_bind_val in H as [s [E4 H]].
  apply py_bind_val in H as [l [E5 H]].
  injection H as <-. cbn [BadgeHighlight.name].
  apply typed_val in E4.
  assert (T : truthy name' = true).
  { destruct (truthy name) eqn:T.
    - injection E2 as <-. exact T.
    - apply py_bind_val in E2 as [d [Ed E2]]. injection E2 as <-.
      destruct (truthy d) eqn:Td; [exact Td|reflexivity]. }
  destruct name' as [| | |x| |]; try discriminate.
  injection E4 as <-. destruct x; [discriminate T|discriminate].
Qed.

Lemma first_three_items :
  forall v v' l, first_three v = Val v' -> for_items v' = Val l ->
                 (length l <= 3)%nat.
Proof.
  intros v v' l F I. destruct v as [| | |s|x|]; try discriminate;
    injection F as <-; cbn [for_items iter_items] in I; injection I as <-.
  - rewrite length_map. destruct s as [|? [|? [|? ?]]]; cbn [length]; lia.
  - destruct x as [|? [|? [|? ?]]]; cbn [length]; lia.
Qed.

(** X13. A profile that [fetch_profile] returns has at most three badges,
    none of them with an empty name, and as many games as the API listed
    items under [games]: the games are not cut. *)
Theorem fetch_profile_badges :
  forall (guess : str -> option str) (urlopen : option Urlopen)
         (session : Http) (api_key steamid : str) (p : SteamProfile),
    fetch_profile guess urlopen session api_key steamid = Val p ->
    (length (badge_highlights p) <= 3)%nat /\
    Forall (fun b => BadgeHighlight.name b <> []) (badge_highlights p) /\
    exists data response games,
      fetch_json session (lit "/IPlayerService/GetRecentlyPlayedGames/v1/")
        [ (lit "key", JStr api_key); (lit "steamid", JStr steamid);
          (lit "count", JInt 3) ] = Val (JDict data) /\
      get data "response" (JDict []) = JDict response /\
      for_items (if truthy (get response "games" (JList []))
                 then get response "games" (JList []) else JList [])
      = Val games /\
      length (recent_games p) = length games.
Proof.
  intros guess urlopen session api_key sid p H. unfold fetch_profile in H.
  apply py_bind_val in H as [summary [E1 H]].
  apply py_bind_val in H as [response [E2 H]].
  apply py_bind_val in H as [players [E3 H]].
  destruct (negb (truthy players)); [discriminate|].
  apply py_bind_val in H as [player [E4 H]].
  apply py_bind_val in H as [level_data [E5 H]].
  apply py_bind_val in H as [response2 [E6 H]].
  apply py_bind_val in H as [lvl [E7 H]].
  apply py_bind_val in H as [badge_data [E8 H]].
  apply py_bind_val in H as [response3 [E9 H]].
  apply py_bind_val in H as [badges [E10 H]].
  apply py_bind_val in H as [badges3 [E11 H]].
  apply py_bind_val in H as [items [E12 H]].
  apply py_bind_val in H as [highlights [E13 H]].
  apply py_bind_val in H as [recent_data [E14 H]].
  apply py_bind_val in H as [response4 [E15 H]].
  apply py_bind_val in H as [games [E16 H]].
  apply py_bind_val in H as [game_items [E17 H]].
  apply py_bind_val in H as [recent [E18 H]].
  repeat (let x := fresh "x" in let E := fresh "E" in
          apply py_bind_val in H as [x [E H]]).
  injection H as <-. cbn [badge_highlights recent_games].
  split; [|split].
  - rewrite (py_traverse_length _ _ _ _ _ E13).
    exact (first_three_items _ _ _ E11 E12).
  - exact (py_traverse_all _ _ _ _ _ _ fetch_badge_name E13).
  - destruct recent_data as [| | | | |data]; try discriminate.
    destruct response4 as [| | | | |resp]; try discriminate.
    cbn [attr_get] in E15, E16. injection E15 as E15. injection E16 as <-.
    exists data, resp, game_items. repeat split; try assumption.
    exact (py_traverse_length _ _ _ _ _ E18).
Qed.

Lemma fetch_profile_badges_witness :
  fetch_profile no_guess None steam_api (lit "KEY") (lit "76561198000000000")
  = Val sample_profile /\
  (length (badge_highlights sample_profile) <= 3)%nat.
Proof.
  assert (E : fetch_profile no_guess None steam_api (lit "KEY")
                (lit "76561198000000000") = Val sample_profile)
    by (vm_compute; reflexivity).
  split; [exact E|].
  exact (proj1 (fetch_profile_badges _ _ _ _ _ _ E)).
Defined.

(** X14. [fetch_profile] returns a profile only when each of its four
    requests was answered; when the first one fails, or the summary lists
    no player, it raises. *)
Theorem fetch_profile_requests :
  forall (guess : str -> option str) (urlopen : option Urlopen)
         (session : Http) (api_key steamid : str),
    let summary :=
      fetch_json session (lit "/ISteamUser/GetPlayerSummaries/v2/")
        [ (lit "key", JStr api_key); (lit "steamids", JStr steamid) ] in
    (forall p, fetch_profile guess urlopen session api_key steamid = Val p ->
               Forall (answered session) (profile_requests api_key steamid)) /\
    (summary = Exc ->
     fetch_profile guess urlopen session api_key steamid = Exc) /\
    (forall data response,
       summary = Val (JDict data) ->
       get data "response" (JDict []) = JDict response ->
       truthy (get response "players" (JList [])) = false ->
       fetch_profile guess urlopen session api_key steamid = Exc).
Proof.
  intros guess urlopen session api_key sid summary. subst summary.
  split; [|split].
  - intros p H. unfold fetch_profile in H.
    apply py_bind_val in H as [summary [E1 H]].
    apply py_bind_val in H as [response [E2 H]].
    apply py_bind_val in H as [players [E3 H]].
    destruct (negb (truthy players)); [discriminate|].
    apply py_bind_val in H as [player [E4 H]].
    apply py_bind_val in H as [level_data [E5 H]].
    apply py_bind_val in H as [response2 [E6 H]].
    apply py_bind_val in H as [lvl [E7 H]].
    apply py_bind_val in H as [badge_data [E8 H]].
    apply py_bind_val in H as [response3 [E9 H]].
    apply py_bind_val in H as [badges [E10 H]].
    apply py_bind_val in H as [badges3 [E11 H]].
    apply py_bind_val in H as [items [E12 H]].
    apply py_bind_val in H as [highlights [E13 H]].
    apply py_bind_val in H as [recent_data [E14 H]].
    clear H. unfold profile_requests.
    apply Forall_cons; [exists summary; exact E1|].
    apply Forall_cons; [exists level_data; exact E5|].
    apply Forall_cons; [exists badge_data; exact E8|].
    apply Forall_cons; [exists recent_data; exact E14|].
    apply Forall_nil.
  - intros E. unfold fetch_profile. rewrite E. reflexivity.
  - intros data response E R T. unfold fetch_profile. rewrite E.
    cbn [py_bind attr_get]. rewrite R. cbn [py_bind attr_get]. rewrite T.
    reflexivity.
Qed.

Lemma fetch_profile_requests_witness :
  Forall (answered steam_api)
         (profile_requests (lit "KEY") (lit "76561198000000000")) /\
  fetch_profile no_guess None unreachable_api (lit "KEY")
    (lit "76561198000000000") = Exc.
Proof.
  destruct (fetch_profile_requests no_guess None steam_api (lit "KEY")
              (lit "76561198000000000")) as [H _].
  destruct (fetch_profile_requests no_guess None unreachable_api (lit "KEY")
              (lit "76561198000000000")) as [_ [H' _]].
  split.
  - apply (H sample_profile). vm_compute. reflexivity.
  - apply H'. vm_compute. reflexivity.
Defined.

Lemma fetch_json_same :
  forall s1 s2 path params,
    same_api s1 s2 -> params <> [] ->
    fetch_json s1 path params = fetch_json s2 path params.
Proof.
  intros s1 s2 path params S N. unfold fetch_json. rewrite (S _ _ N).
  reflexivity.
Qed.

(** X15. The avatar is best effort in [fetch_profile]: two sessions that
    answer the requests of the API alike give the same result, whatever
    becomes of the download of the avatar, but for the embedded avatar of
    the profile; and that one is what [fetch_avatar_data] makes of the
    profile's [avatarfull]. *)
Theorem fetch_profile_avatar :
  forall (guess : str -> option str) (urlopen : option Urlopen)
         (s1 s2 : Http) (api_key steamid : str),
    same_api s1 s2 ->
    same_but_avatar (fetch_profile guess urlopen s1 api_key steamid)
                    (fetch_profile guess urlopen s2 api_key steamid) /\
    (forall p, fetch_profile guess urlopen s1 api_key steamid = Val p ->
       fetch_avatar_data guess (Some (avatar_session s1)) urlopen (avatarfull p)
       = Returns (avatar_data_uri p)).
Proof.
  intros guess urlopen s1 s2 api_key sid S. split.
  - unfold fetch_profile.
    rewrite !(fetch_json_same s1 s2) by (exact S || discriminate).
    repeat (cbn [py_bind same_but_avatar raised];
            match goal with
            | |- same_but_avatar
                   (py_bind (raised (fetch_avatar_data ?g ?s ?u ?x)) _)
                   (py_bind (raised (fetch_avatar_data ?g ?s' ?u ?x)) _) =>
              destruct (fetch_avatar_data_returns g s u x) as [? ->];
              destruct (fetch_avatar_data_returns g s' u x) as [? ->]
            | |- same_but_avatar (py_bind ?m _) _ =>
              destruct m; cbn [py_bind same_but_avatar]; try exact I
            | |- same_but_avatar (if ?c then _ else _) _ =>
              destruct c; cbn [py_bind same_but_avatar]; try exact I
            end).
    reflexivity.
  - intros p H. unfold fetch_profile in H.
    do 3 (let x := fresh "x" in let E := fresh "E" in
          apply py_bind_val in H as [x [E H]]).
    destruct (negb (truthy x1)); [discriminate|].
    do 15 (let x := fresh "x" in let E := fresh "E" in
           apply py_bind_val in H as [x [E H]]).
    apply py_bind_val in H as [url [Eu H]].
    apply py_bind_val in H as [url' [Eu' H]].
    apply py_bind_val in H as [uri [Ea H]].
    do 4 (let x := fresh "x" in let E := fresh "E" in
          apply py_bind_val in H as [x [E H]]).
    do 2 (let x := fresh "x" in let E := fresh "E" in
          apply py_bind_val in H as [x [E H]]).
    apply py_bind_val in H as [af [Ef H]].
    apply py_bind_val in H as [af' [Ef' H]].
    repeat (let x := fresh "x" in let E := fresh "E" in
            apply py_bind_val in H as [x [E H]]).
    injection H as <-. cbn [avatarfull avatar_data_uri].
    rewrite Ef in Eu. injection Eu as <-. rewrite Ef' in Eu'.
    injection Eu' as <-.
    destruct (fetch_avatar_data guess (Some (avatar_session s1)) urlopen af');
      [|discriminate].
    injection Ea as <-. reflexivity.
Qed.

Lemma fetch_profile_avatar_witness :
  same_but_avatar
    (fetch_profile no_guess None steam_api (lit "KEY")
       (lit "76561198000000000"))
    (fetch_profile no_guess None steam_api_without_avatar (lit "KEY")
       (lit "76561198000000000")) /\
  fetch_profile no_guess None steam_api_without_avatar (lit "KEY")
    (lit "76561198000000000")
  = Val (with_avatar_data_uri sample_profile None).
Proof.
  split.
  - apply (fetch_profile_avatar no_guess None steam_api
             steam_api_without_avatar (lit "KEY") (lit "76561198000000000")).
    intros url params N. unfold steam_api_without_avatar.
    destruct params; [contradiction|reflexivity].
  - vm_compute. reflexivity.
Defined.

(** ** The requests *)

(** X16. [fetch_json] gives a document exactly when the request returns a
    response whose status is no client or server error (400 to 599) and
    whose body is JSON; a response with such a status raises, whatever its
    body holds, and a status such as 204 or 304 does not. *)
Theorem fetch_json_status :
  forall (session : Http) (path : str) (params : list (str * json)),
    (forall doc,
       fetch_json session path params = Val doc <->
       exists r, session (API_BASE ++ path) params = Returns r /\
                 (status_code (http_response r) < 400
                  \/ 600 <= status_code (http_response r)) /\
                 http_json r = Returns doc) /\
    (forall r, session (API_BASE ++ path) params = Returns r ->
               400 <= status_code (http_response r) < 600 ->
               fetch_json session path params = Exc) /\
    (session (API_BASE ++ path) params = Raises ->
     fetch_json session path params = Exc) /\
    fetch_json session path params <> Untyped.
Proof.
  intros session path params. unfold fetch_json, raise_for_status.
  destruct (session (API_BASE ++ path) params) as [r|]; cbn [raised py_bind].
  - destruct (Z.leb_spec 400 (status_code (http_response r))) as [L|L];
      destruct (Z.ltb_spec (status_code (http_response r)) 600) as [U|U];
      cbn [andb raised py_bind].
    + split; [|split; [|split]]; try discriminate; [|reflexivity].
      intros doc. split; [discriminate|].
      intros [r' [E [S J]]]. injection E as <-. lia.
    + split; [|split; [|split]]; try discriminate.
      * intros doc. split.
        -- intros H. exists r. split; [reflexivity|]. split; [right; lia|].
           destruct (http_json r); [injection H as <-; reflexivity|discriminate].
        -- intros [r' [E [S J]]]. injection E as <-. rewrite J. reflexivity.
      * intros r' E. injection E as <-. lia.
      * destruct (http_json r); discriminate.
    + split; [|split; [|split]]; try discriminate.
      * intros doc. split.
        -- intros H. exists r. split; [reflexivity|]. split; [left; lia|].
           destruct (http_json r); [injection H as <-; reflexivity|discriminate].
        -- intros [r' [E [S J]]]. injection E as <-. rewrite J. reflexivity.
      * intros r' E. injection E as <-. lia.
      * destruct (http_json r); discriminate.
    + lia.
  - split; [|split; [|split]]; try discriminate; [|reflexivity].
    intros doc. split; [discriminate|]. intros [r [E _]]. discriminate.
Qed.

Lemma fetch_json_status_witness :
  fetch_json steam_api (lit "/IPlayerService/GetSteamLevel/v1/")
    [ (lit "key", JStr (lit "KEY")) ]
  = Val (JDict [ (lit "response", JDict [ (lit "player_level", JInt 12) ]) ]) /\
  fetch_json unreachable_api (lit "/IPlayerService/GetSteamLevel/v1/") [] = Exc.
Proof.
  destruct (fetch_json_status steam_api
              (lit "/IPlayerService/GetSteamLevel/v1/")
              [ (lit "key", JStr (lit "KEY")) ]) as [H _].
  destruct (fetch_json_status unreachable_api
              (lit "/IPlayerService/GetSteamLevel/v1/") []) as [_ [_ [H' _]]].
  split.
  - apply H. eexists. split; [vm_compute; reflexivity|].
    split; [left; vm_compute; reflexivity|reflexivity].
  - apply H'. reflexivity.
Defined.

(** X17. The identifier of a live fetch: the fetch asks for the profile of
    [--steamid] when there is one, without resolving anything, and for the
    identifier that [--vanity] resolves to otherwise; it never asks for
    the profile of an empty identifier, and raises when neither argument
    is given. *)
Theorem live_profile_identifier :
  forall (guess : str -> option str) (urlopen : option Urlopen)
         (session : Http) (api_key : str) (args : Args),
    (forall id, arg_steamid args = Some id -> id <> [] ->
       live_profile guess urlopen session api_key args
       = fetch_profile guess urlopen session api_key id) /\
    (forall p, live_profile guess urlopen session api_key args = Val p ->
       exists id,
         id <> [] /\
         fetch_profile guess urlopen session api_key id = Val p /\
         (arg_steamid args = Some id \/
          truthy_ostr (arg_steamid args) = false /\
          exists vanity, arg_vanity args = Some vanity /\ vanity <> [] /\
                         resolve_vanity session api_key vanity = Val id)) /\
    (truthy_ostr (arg_steamid args) = false ->
     truthy_ostr (arg_vanity args) = false ->
     live_profile guess urlopen session api_key args = Exc).
Proof.
  intros guess urlopen session api_key args. unfold live_profile.
  split; [|split].
  - intros id E N. rewrite E. destruct id as [|c r]; [contradiction|].
    reflexivity.
  - intros p H. apply py_bind_val in H as [id [E H]].
    destruct id as [|c r]; [discriminate|]. cbn [truthy_str negb] in H.
    exists (c :: r). split; [discriminate|]. split; [exact H|].
    destruct (arg_steamid args) as [sid|]; cbn [truthy_ostr] in *.
    + revert E. destruct (truthy_str sid) eqn:T; intros E.
      * left. cbn [typed] in E. injection E as ->. reflexivity.
      * right. split; [reflexivity|].
        destruct (arg_vanity args) as [v|]; cbn [truthy_ostr] in E;
          [|discriminate].
        destruct v as [|c' r']; [discriminate|].
        exists (c' :: r'). split; [reflexivity|]. split; [discriminate|].
        exact E.
    + right. split; [reflexivity|].
      destruct (arg_vanity args) as [v|]; cbn [truthy_ostr] in E;
        [|discriminate].
      destruct v as [|c' r']; [discriminate|].
      exists (c' :: r'). split; [reflexivity|]. split; [discriminate|].
      exact E.
  - intros S V. rewrite S, V. reflexivity.
Qed.

Lemma live_profile_identifier_witness :
  live_profile no_guess None unreachable_api (lit "KEY") keyless_args = Exc /\
  live_profile no_guess None steam_api (lit "KEY") offline_args = Exc.
Proof.
  split.
  - vm_compute. reflexivity.
  - destruct (live_profile_identifier no_guess None steam_api (lit "KEY")
                offline_args) as [_ [_ H]].
    apply H; reflexivity.
Defined.

(** ** The command *)











(** ** Examples *)

Example human_minutes_examples :
  human_minutes 125 = lit "2h 5m" /\ human_minutes 120 = lit "2h" /\
  human_minutes 45 = lit "45m" /\ human_minutes 0 = lit "0m".
Proof. repeat split; vm_compute; reflexivity. Qed.

Example member_since_2012 :
  member_since (with_times (Some 1330000000) None 0) = Some (lit "Feb 2012").
Proof. vm_compute. reflexivity. Qed.

Example country_flag_us :
  forall up, country_flag up (with_country (Some (lit "us"))) = Some [127482; 127480].
Proof. intros up. reflexivity. Qed.

Example country_flag_three_letters :
  forall up, country_flag up (with_country (Some (lit "usa"))) = None.
Proof. intros up. reflexivity. Qed.

Example cache_round_trip_five :
  load_cached_profile (lit "cache.json")
    (save_profile_cache five_of_each (lit "cache.json") (fun _ => None))
  = Some five_of_each.
Proof. vm_compute. reflexivity. Qed.

(** A document without any of the keys loads with the defaults. *)
Example load_empty_document :
  option_map personaname
    (load_cached_profile (lit "cache.json")
       (write_json (lit "cache.json") (JDict []) (fun _ => None)))
  = Some (lit "Unknown").
Proof. vm_compute. reflexivity. Qed.

(** The profile URL stands in an attribute between double quotes, and
    [escape] leaves a double quote of the URL as it is. *)
Example profile_url_double_quote :
  occurs (link_open ++ tpl "x` onclick=`y" ++ link_rest)
         (fst (render_svg caseless quoted_url (frozen 0))) = true.
Proof. vm_compute. reflexivity. Qed.
